(** * Loan lifecycle and inventory consistency of the library system

    A shallow embedding of the loan/inventory logic of the repository:

    - the relational schema of [schema.sql] (tables [users], [books],
      [loans], their CHECK and FOREIGN KEY constraints, the triggers
      [UpdateOverdueLoans] and [prevent_book_deletion]);
    - the stored procedures [ProcessLoan] and [ReturnBook] of [schema.sql];
    - the storage layer of [server/storage.ts] ([createLoan], [updateLoan],
      [returnBook], [renewLoan], [deleteBook]) and the HTTP handlers that
      call it ([POST /api/loans], [POST /api/loans/:id/return],
      [POST /api/loans/:id/renew], [DELETE /api/books/:id]).

    The database is the one [schema.sql] creates (MySQL, InnoDB); the
    storage layer issues its statements against it, one autocommitted
    statement per [await].  Dates are day numbers (calendar-day
    granularity), money is in hundredths of a currency unit
    ([DECIMAL(10,2)]), so a fine of 2.50 is [250]. *)

From Stdlib Require Import ZArith String Lia.
From stdpp Require Import base decidable option gmap strings fin_maps sorting.

Local Open Scope string_scope.
Local Open Scope Z_scope.

(** ** Calendar dates as day numbers *)

(** Days since 1970-01-01 of a proleptic Gregorian date; [DATEDIFF] is then
    subtraction and [DATE_ADD(d, INTERVAL n DAY)] is addition. *)
Definition days_from_civil (y m d : Z) : Z :=
  let y' := if m <=? 2 then y - 1 else y in
  let era := y' / 400 in
  let yoe := y' - era * 400 in
  let mp := (m + 9) mod 12 in
  let doy := (153 * mp + 2) / 5 + d - 1 in
  let doe := yoe * 365 + yoe / 4 - yoe / 100 + doy in
  era * 146097 + doe - 719468.

Definition DATEDIFF (a b : Z) : Z := a - b.
Definition DATE_ADD_DAY (d n : Z) : Z := d + n.

(** ** Rows *)

(** [ENUM('available', 'checked_out', 'missing')] *)
Inductive BookStatus := available | checked_out | missing.
(** [ENUM('active', 'returned', 'overdue')] *)
Inductive LoanStatus := active | returned | overdue.
(** [ENUM('patron', 'staff')] *)
Inductive Role := patron | staff.

#[global] Instance BookStatus_eq_dec : EqDecision BookStatus.
Proof. solve_decision. Defined.
#[global] Instance LoanStatus_eq_dec : EqDecision LoanStatus.
Proof. solve_decision. Defined.
#[global] Instance Role_eq_dec : EqDecision Role.
Proof. solve_decision. Defined.

(** A row of [users]; the primary key [id] is the key of the table map.
    The columns the loan logic reads are taken as NOT NULL. *)
Record User := mkUser {
  is_active : bool;
  role : Role
}.

(** A row of [books] (the columns the loan logic reads or writes). *)
Record Book := mkBook {
  total_copies : Z;
  available_copies : Z;
  book_status : BookStatus
}.

(** A row of [loans].  [renew_count] is the column the storage layer calls
    [renewalCount]; [fine] is in hundredths. *)
Record Loan := mkLoan {
  user_id : string;
  book_id : Z;
  loan_date : Z;
  due_date : Z;
  return_date : option Z;
  renew_count : Z;
  status : LoanStatus;
  fine : Z
}.

Definition set_available_copies (v : Z) (b : Book) : Book :=
  mkBook (total_copies b) v (book_status b).
Definition set_book_status (s : BookStatus) (b : Book) : Book :=
  mkBook (total_copies b) (available_copies b) s.

Definition set_due_date (v : Z) (l : Loan) : Loan :=
  mkLoan (user_id l) (book_id l) (loan_date l) v (return_date l)
         (renew_count l) (status l) (fine l).
Definition set_return_date (v : option Z) (l : Loan) : Loan :=
  mkLoan (user_id l) (book_id l) (loan_date l) (due_date l) v
         (renew_count l) (status l) (fine l).
Definition set_renew_count (v : Z) (l : Loan) : Loan :=
  mkLoan (user_id l) (book_id l) (loan_date l) (due_date l) (return_date l)
         v (status l) (fine l).
Definition set_status (v : LoanStatus) (l : Loan) : Loan :=
  mkLoan (user_id l) (book_id l) (loan_date l) (due_date l) (return_date l)
         (renew_count l) v (fine l).
Definition set_fine (v : Z) (l : Loan) : Loan :=
  mkLoan (user_id l) (book_id l) (loan_date l) (due_date l) (return_date l)
         (renew_count l) (status l) v.

(** ** The database *)

Record DB := mkDB {
  users : gmap string User;
  books : gmap Z Book;
  loans : gmap Z Loan;
  loans_auto_increment : Z
}.

Definition with_books (bs : gmap Z Book) (db : DB) : DB :=
  mkDB (users db) bs (loans db) (loans_auto_increment db).
Definition with_loans (ls : gmap Z Loan) (db : DB) : DB :=
  mkDB (users db) (books db) ls (loans_auto_increment db).

(** ** Failures and the statement monad *)

Inductive Failure :=
| Signal45000 (msg : string)        (* SIGNAL SQLSTATE '45000' *)
| CheckViolated (name : string)     (* a CHECK constraint rejected the row *)
| NoReferencedRow (fk : string)     (* a FOREIGN KEY has no parent row *)
| DuplicateEntry                    (* PRIMARY KEY already present *)
| TypeError.                        (* JS: property read on [undefined] *)

(** A computation runs against the database and either returns a value or
    raises; the database it leaves behind is kept in both cases, because a
    statement that has been executed stays executed unless somebody rolls
    back. *)
Definition M (A : Type) : Type := DB → (Failure + A) * DB.

Definition ret {A} (a : A) : M A := λ db, (inr a, db).
Definition throw {A} (e : Failure) : M A := λ db, (inl e, db).
Definition bind {A B} (m : M A) (k : A → M B) : M B :=
  λ db, match m db with
        | (inl e, db') => (inl e, db')
        | (inr a, db') => k a db'
        end.
Definition query {A} (q : DB → A) : M A := λ db, (inr (q db), db).

#[global] Instance M_ret : MRet M := @ret.
#[global] Instance M_bind : MBind M := λ A B k m, bind m k.

(** [START TRANSACTION; body; COMMIT] under
    [DECLARE EXIT HANDLER FOR SQLEXCEPTION BEGIN ROLLBACK; RESIGNAL; END]. *)
Definition transaction {A} (body : M A) : M A :=
  λ db, match body db with
        | (inl e, _) => (inl e, db)
        | (inr a, db') => (inr a, db')
        end.

(** [IF c THEN SIGNAL SQLSTATE '45000' SET MESSAGE_TEXT = msg; END IF] *)
Definition SIGNAL_IF (c : bool) (msg : string) : M unit :=
  if c then throw (Signal45000 msg) else mret tt.

(** [SELECT e INTO v FROM t WHERE pk = k]: with no matching row the statement
    only raises the NOT FOUND warning (SQLSTATE 02000, which is not an
    SQLEXCEPTION) and [v] keeps the value it was declared with. *)
Definition SELECT_INTO {A R} (declared : A) (table : DB → gmap Z R)
    (e : R → A) (k : Z) : M A :=
  query (λ db, match table db !! k with
               | Some row => e row
               | None => declared
               end).

(** [SELECT COUNT( * ) FROM loans WHERE P] *)
Definition COUNT_loans (P : Loan → Prop) `{!∀ l, Decision (P l)}
    (ls : gmap Z Loan) : Z :=
  Z.of_nat (size (filter (λ kl, P kl.2) ls)).

(** A SET clause is a list of assignments.  MySQL evaluates the assignments
    of a single-table UPDATE from left to right, and an expression that
    reads a column sees the value the column has at that point, so a later
    assignment sees what an earlier one wrote. *)
Definition SET {R} (assignments : list (R → R)) (row : R) : R :=
  fold_left (λ r a, a r) assignments row.

(** ** Constraints and triggers of [schema.sql] *)

(** The CHECK constraints of [books]:
    [total_copies >= 0], [available_copies >= 0] and [chk_copies]. *)
Definition books_checks (b : Book) : option Failure :=
  if decide (¬ total_copies b >= 0) then Some (CheckViolated "books_chk_1")
  else if decide (¬ available_copies b >= 0) then Some (CheckViolated "books_chk_2")
  else if decide (¬ available_copies b <= total_copies b) then Some (CheckViolated "chk_copies")
  else None.

(** The CHECK constraint of [loans]: [renew_count <= 2]. *)
Definition loans_checks (l : Loan) : option Failure :=
  if decide (¬ renew_count l <= 2) then Some (CheckViolated "loans_chk_1")
  else None.

(** The FOREIGN KEYs of [loans] on a row that is inserted ([OLD] absent), or
    updated (only a changed column is looked up). *)
Definition loans_foreign_keys (db : DB) (OLD : option Loan) (NEW : Loan)
    : option Failure :=
  if decide ((user_id <$> OLD) ≠ Some (user_id NEW) ∧ users db !! user_id NEW = None)
  then Some (NoReferencedRow "loans_ibfk_1")
  else if decide ((book_id <$> OLD) ≠ Some (book_id NEW) ∧ books db !! book_id NEW = None)
  then Some (NoReferencedRow "loans_ibfk_2")
  else None.

(** [CREATE TRIGGER UpdateOverdueLoans BEFORE UPDATE ON loans FOR EACH ROW] *)
Definition UpdateOverdueLoans (CURDATE : Z) (NEW : Loan) : Loan :=
  if decide (status NEW = active ∧ due_date NEW < CURDATE)
  then set_status overdue NEW
  else NEW.

(** [CREATE TRIGGER prevent_book_deletion BEFORE DELETE ON books FOR EACH ROW] *)
Definition prevent_book_deletion (OLD_id : Z) : M unit :=
  loan_count ← query (λ db,
    COUNT_loans (λ l, book_id l = OLD_id ∧ (status l = active ∨ status l = overdue))
                (loans db));
  SIGNAL_IF (bool_decide (loan_count > 0)) "Cannot delete book with active loans".

(** ** Statements *)

(** [INSERT INTO loans (...) VALUES (...)]; returns the AUTO_INCREMENT id. *)
Definition INSERT_loans (row : Loan) : M Z :=
  λ db,
    let id := loans_auto_increment db in
    if decide (is_Some (loans db !! id)) then (inl DuplicateEntry, db)
    else match loans_checks row with
    | Some e => (inl e, db)
    | None =>
      match loans_foreign_keys db None row with
      | Some e => (inl e, db)
      | None => (inr id, mkDB (users db) (books db) (<[id := row]> (loans db)) (id + 1))
      end
    end.

(** [UPDATE loans SET ... WHERE id = k]; returns the updated row, if any. *)
Definition UPDATE_loans (CURDATE : Z) (assignments : list (Loan → Loan)) (k : Z)
    : M (option Loan) :=
  λ db,
    match loans db !! k with
    | None => (inr None, db)
    | Some OLD =>
      let NEW := UpdateOverdueLoans CURDATE (SET assignments OLD) in
      match loans_checks NEW with
      | Some e => (inl e, db)
      | None =>
        match loans_foreign_keys db (Some OLD) NEW with
        | Some e => (inl e, db)
        | None => (inr (Some NEW), with_loans (<[k := NEW]> (loans db)) db)
        end
      end
    end.

(** [UPDATE books SET ... WHERE id = k] *)
Definition UPDATE_books (assignments : list (Book → Book)) (k : Z) : M unit :=
  λ db,
    match books db !! k with
    | None => (inr tt, db)
    | Some OLD =>
      let NEW := SET assignments OLD in
      match books_checks NEW with
      | Some e => (inl e, db)
      | None => (inr tt, with_books (<[k := NEW]> (books db)) db)
      end
    end.

(** [DELETE FROM books WHERE id = k]; [loans.book_id] is declared
    [ON DELETE CASCADE].  The statement is atomic: a trigger that signals
    leaves the table as it was. *)
Definition DELETE_books (k : Z) : M unit :=
  λ db,
    match books db !! k with
    | None => (inr tt, db)
    | Some _ =>
      match prevent_book_deletion k db with
      | (inl e, _) => (inl e, db)
      | (inr _, _) =>
        (inr tt, mkDB (users db) (delete k (books db))
                      (filter (λ kl, book_id kl.2 ≠ k) (loans db))
                      (loans_auto_increment db))
      end
    end.

(** ** Stored procedures of [schema.sql] *)

(** [CREATE PROCEDURE ProcessLoan(p_user_id, p_book_id, p_loan_days)] *)
Definition ProcessLoan (CURDATE : Z) (p_user_id : string) (p_book_id : Z)
    (p_loan_days : Z) : M unit :=
  transaction (
    book_available ← SELECT_INTO 0 books available_copies p_book_id;
    user_active ← query (λ db, match users db !! p_user_id with
                               | Some u => is_active u
                               | None => false
                               end);
    user_overdue_count ← query (λ db,
      COUNT_loans (λ l, user_id l = p_user_id ∧ status l = overdue) (loans db));
    SIGNAL_IF (bool_decide (book_available <= 0)) "Book not available for loan";;
    SIGNAL_IF (negb user_active) "User account is not active";;
    SIGNAL_IF (bool_decide (user_overdue_count > 0)) "User has overdue items";;
    let new_due_date := DATE_ADD_DAY CURDATE p_loan_days in
    INSERT_loans (mkLoan p_user_id p_book_id CURDATE new_due_date None 0 active 0);;
    UPDATE_books
      [ (λ b, set_available_copies (available_copies b - 1) b);
        (λ b, set_book_status (if decide (available_copies b - 1 = 0)
                               then checked_out else book_status b) b) ]
      p_book_id).

(** [CREATE PROCEDURE ReturnBook(p_loan_id, p_return_date)]; the fine of
    0.50 per day is [50] hundredths per day. *)
Definition ReturnBook (CURDATE : Z) (p_loan_id : Z) (p_return_date : option Z)
    : M unit :=
  transaction (
    let v_return_date := default CURDATE p_return_date in
    (* SELECT book_id, due_date INTO v_book_id, v_due_date
       FROM loans WHERE id = p_loan_id AND status = 'active' *)
    found ← query (λ db, match loans db !! p_loan_id with
                         | Some l => if decide (status l = active) then Some l else None
                         | None => None
                         end);
    let v_book_id := book_id <$> found in
    let v_due_date := due_date <$> found in
    (* IF v_return_date > v_due_date THEN ...; a comparison with NULL is
       not true *)
    let v_fine := match v_due_date with
                  | Some due => if bool_decide (v_return_date > due)
                                then DATEDIFF v_return_date due * 50
                                else 0
                  | None => 0
                  end in
    UPDATE_loans CURDATE
      [ set_return_date (Some v_return_date); set_status returned; set_fine v_fine ]
      p_loan_id;;
    match v_book_id with
    | Some k =>
      UPDATE_books
        [ (λ b, set_available_copies (available_copies b + 1) b);
          set_book_status available ]
        k
    | None => mret tt             (* WHERE id = NULL matches no row *)
    end).

(** ** The storage layer ([server/storage.ts]) *)

Module Storage.

(** [InsertLoan]: the columns of [loans] without [id] and [createdAt]; the
    columns that have a default may be left out. *)
Record InsertLoan := mkInsertLoan {
  userId : string;
  bookId : Z;
  loanDate : Z;
  dueDate : Z;
  returnDate : option Z;
  renewalCount : option Z;
  loanStatus : option LoanStatus;
  loanFine : option Z
}.

(** [Partial<InsertLoan>]: every column may be left out; [returnDate] may
    also be set to [null]. *)
Record PartialLoan := mkPartialLoan {
  p_userId : option string;
  p_bookId : option Z;
  p_loanDate : option Z;
  p_dueDate : option Z;
  p_returnDate : option (option Z);
  p_renewalCount : option Z;
  p_loanStatus : option LoanStatus;
  p_loanFine : option Z
}.

(** The row [db.insert(loans).values(loan)] writes: the column defaults of
    the table fill what the caller left out. *)
Definition values (loan : InsertLoan) : Loan :=
  mkLoan (userId loan) (bookId loan) (loanDate loan) (dueDate loan)
         (returnDate loan)
         (default 0 (renewalCount loan))
         (default active (loanStatus loan))
         (default 0 (loanFine loan)).

Definition set_user_id (v : string) (l : Loan) : Loan :=
  mkLoan v (book_id l) (loan_date l) (due_date l) (return_date l)
         (renew_count l) (status l) (fine l).
Definition set_book_id (v : Z) (l : Loan) : Loan :=
  mkLoan (user_id l) v (loan_date l) (due_date l) (return_date l)
         (renew_count l) (status l) (fine l).
Definition set_loan_date (v : Z) (l : Loan) : Loan :=
  mkLoan (user_id l) (book_id l) v (due_date l) (return_date l)
         (renew_count l) (status l) (fine l).

(** One assignment per column present in the object. *)
Definition column {A} (v : option A) (set : A → Loan → Loan) : list (Loan → Loan) :=
  match v with
  | Some a => [set a]
  | None => []
  end.

Definition partial_set (loan : PartialLoan) : list (Loan → Loan) :=
  column (p_userId loan) set_user_id ++
  column (p_bookId loan) set_book_id ++
  column (p_loanDate loan) set_loan_date ++
  column (p_dueDate loan) set_due_date ++
  column (p_returnDate loan) set_return_date ++
  column (p_renewalCount loan) set_renew_count ++
  column (p_loanStatus loan) set_status ++
  column (p_loanFine loan) set_fine.

Definition getUser (id : string) : M (option User) := query (λ db, users db !! id).
Definition getBook (id : Z) : M (option Book) := query (λ db, books db !! id).
Definition getLoan (id : Z) : M (option Loan) := query (λ db, loans db !! id).

(** [async deleteBook(id)] *)
Definition deleteBook (id : Z) : M unit := DELETE_books id.

(** [async createLoan(loan)]: two statements, no transaction. *)
Definition createLoan (loan : InsertLoan) : M (Z * Loan) :=
  id ← INSERT_loans (values loan);
  UPDATE_books
    [ (λ b, set_available_copies (available_copies b - 1) b);
      (λ b, set_book_status (if decide (available_copies b - 1 = 0)
                             then checked_out else available) b) ]
    (bookId loan);;
  mret (id, values loan).

(** [async updateLoan(id, loan)] *)
Definition updateLoan (today : Z) (id : Z) (loan : PartialLoan) : M (option Loan) :=
  UPDATE_loans today (partial_set loan) id.

(** [async returnBook(loanId)]; [updatedLoan.bookId] throws when the UPDATE
    matched no row. *)
Definition returnBook (today : Z) (loanId : Z) : M Loan :=
  r ← UPDATE_loans today [ set_status returned; set_return_date (Some today) ] loanId;
  match r with
  | None => throw TypeError
  | Some updatedLoan =>
    UPDATE_books
      [ (λ b, set_available_copies (available_copies b + 1) b);
        set_book_status available ]
      (book_id updatedLoan);;
    mret updatedLoan
  end.

(** [async renewLoan(loanId)] *)
Definition renewLoan (today : Z) (loanId : Z) : M (option Loan) :=
  UPDATE_loans today
    [ (λ l, set_renew_count (renew_count l + 1) l);
      (λ l, set_due_date (DATE_ADD_DAY (due_date l) 14) l) ]
    loanId.

End Storage.

(** ** The HTTP handlers *)

Module Routes.
Import Storage.

Inductive Body :=
| message (m : string)
| loan_json (id : Z) (l : Loan)
| row_json (l : option Loan)
| empty.

Record Response := json { code : Z; body : Body }.

(** [try { ... } catch (error) { res.status(500).json({ message }) }]: what
    the statements before the exception wrote stays written. *)
Definition try_catch (handler : M Response) (failed : string) : DB → Response * DB :=
  λ db, match handler db with
        | (inr res, db') => (res, db')
        | (inl _, db') => (json 500 (message failed), db')
        end.

(** [app.delete('/api/books/:id', isAuthenticated, ...)]; [sub] is the id of
    the authenticated user. *)
Definition delete_api_books (sub : string) (id : Z) : DB → Response * DB :=
  try_catch (
    user ← getUser sub;
    match user with
    | Some u =>
      if decide (role u ≠ staff)
      then mret (json 403 (message "Access denied. Staff only."))
      else deleteBook id;; mret (json 204 empty)
    | None => mret (json 403 (message "Access denied. Staff only."))
    end) "Failed to delete book".

(** [app.post('/api/loans', isAuthenticated, ...)]; the request body is one
    that [insertLoanSchema.parse] accepts. *)
Definition post_api_loans (sub : string) (req_body : InsertLoan) : DB → Response * DB :=
  try_catch (
    user ← getUser sub;
    match user with
    | None => mret (json 404 (message "User not found"))
    | Some u =>
      let loanData :=
        mkInsertLoan (if decide (role u = patron) then sub else userId req_body)
                     (bookId req_body) (loanDate req_body) (dueDate req_body)
                     (returnDate req_body) (renewalCount req_body)
                     (loanStatus req_body) (loanFine req_body) in
      book ← getBook (bookId loanData);
      match book with
      | None => mret (json 400 (message "Book is not available"))
      | Some b =>
        if decide (available_copies b <= 0)
        then mret (json 400 (message "Book is not available"))
        else
          loan ← createLoan loanData;
          mret (json 201 (loan_json loan.1 loan.2))
      end
    end) "Failed to create loan".

(** [app.post('/api/loans/:id/return', isAuthenticated, ...)] *)
Definition post_api_loans_return (today : Z) (sub : string) (id : Z)
    : DB → Response * DB :=
  try_catch (
    user ← getUser sub;
    match user with
    | None => mret (json 404 (message "User not found"))
    | Some u =>
      loan ← getLoan id;
      match loan with
      | None => mret (json 404 (message "Loan not found"))
      | Some l =>
        if decide (role u ≠ staff ∧ user_id l ≠ sub)
        then mret (json 403 (message "Access denied"))
        else
          updatedLoan ← returnBook today id;
          mret (json 200 (loan_json id updatedLoan))
      end
    end) "Failed to return book".

(** [app.post('/api/loans/:id/renew', isAuthenticated, ...)] *)
Definition post_api_loans_renew (today : Z) (sub : string) (id : Z)
    : DB → Response * DB :=
  try_catch (
    user ← getUser sub;
    match user with
    | None => mret (json 404 (message "User not found"))
    | Some u =>
      loan ← getLoan id;
      match loan with
      | None => mret (json 404 (message "Loan not found"))
      | Some l =>
        if decide (role u ≠ staff ∧ user_id l ≠ sub)
        then mret (json 403 (message "Access denied"))
        else if decide (renew_count l >= 2)
        then mret (json 400 (message "Maximum renewals reached"))
        else
          updatedLoan ← renewLoan today id;
          mret (json 200 (row_json updatedLoan))
      end
    end) "Failed to renew loan".

(** The second router of the repository posts the request body to the
    storage layer as it is:
    [app.post("/api/loans", isAuthenticated, ...)] with
    [storage.createLoan(req.body)]. *)
Definition post_api_loans_simple (req_body : InsertLoan) : DB → Response * DB :=
  try_catch (
    loan ← createLoan req_body;
    mret (json 200 (loan_json loan.1 loan.2))) "Failed to create loan".

End Routes.

(** ** Sequences of loan operations *)

(** The operations that create, return and renew loans, on each of their
    entry points. *)
Inductive Operation :=
| call_ProcessLoan (CURDATE : Z) (p_user_id : string) (p_book_id p_loan_days : Z)
| call_ReturnBook (CURDATE p_loan_id : Z) (p_return_date : option Z)
| storage_createLoan (loan : Storage.InsertLoan)
| storage_returnBook (today loanId : Z)
| storage_renewLoan (today loanId : Z)
| http_post_loans (sub : string) (req_body : Storage.InsertLoan)
| http_post_loans_simple (req_body : Storage.InsertLoan)
| http_post_loans_return (today : Z) (sub : string) (id : Z)
| http_post_loans_renew (today : Z) (sub : string) (id : Z).

Definition step (db : DB) (op : Operation) : DB :=
  match op with
  | call_ProcessLoan d u k n => (ProcessLoan d u k n db).2
  | call_ReturnBook d k r => (ReturnBook d k r db).2
  | storage_createLoan loan => (Storage.createLoan loan db).2
  | storage_returnBook d k => (Storage.returnBook d k db).2
  | storage_renewLoan d k => (Storage.renewLoan d k db).2
  | http_post_loans sub b => (Routes.post_api_loans sub b db).2
  | http_post_loans_simple b => (Routes.post_api_loans_simple b db).2
  | http_post_loans_return d sub k => (Routes.post_api_loans_return d sub k db).2
  | http_post_loans_renew d sub k => (Routes.post_api_loans_renew d sub k db).2
  end.

Definition run (ops : list Operation) (db : DB) : DB := fold_left step ops db.

(** ** Predicates of the specification *)

(** The inventory invariant: [0 <= available_copies <= total_copies]. *)
Definition copies_in_range (b : Book) : Prop :=
  0 <= available_copies b ∧ available_copies b <= total_copies b.

Definition inventory_invariant (db : DB) : Prop :=
  map_Forall (λ _ b, copies_in_range b) (books db).

(** The derived status of a book that is not flagged [missing]. *)
Definition status_derived (b : Book) : Prop :=
  (book_status b = checked_out ↔ available_copies b = 0) ∧
  (available_copies b ≠ 0 → book_status b = available).

(** A loan counts as open while it is [active] or [overdue]. *)
Definition open_loan (l : Loan) : Prop := status l = active ∨ status l = overdue.

#[global] Instance copies_in_range_dec b : Decision (copies_in_range b).
Proof. unfold copies_in_range. apply _. Defined.
#[global] Instance status_derived_dec b : Decision (status_derived b).
Proof. unfold status_derived. apply _. Defined.
#[global] Instance open_loan_dec l : Decision (open_loan l).
Proof. unfold open_loan. apply _. Defined.

(** ** Auxiliary definitions for the properties *)

(** A computation keeps an invariant of the database, whether it returns
    or raises. *)
Definition preserves (I : DB → Prop) {A} (m : M A) : Prop :=
  ∀ db, I db → I (m db).2.

(** A date written as year, month, day. *)
Definition d (y m day : Z) : Z := days_from_civil y m day.

(** A small database in the shape of the sample data: Alice (user_001) and
    Bob (user_002) are patrons, user_009 is a deactivated patron, Sarah
    (staff_001) is staff; book 1 has one of three copies on the shelf,
    book 2 none of two, book 5 both of two.  Loan 1 (Alice, book 2) is
    overdue, loan 2 (Bob, book 1) is active and was renewed twice, loan 3
    (Bob, book 1) was returned. *)
Definition sample_db : DB :=
  mkDB
    (<["user_001" := mkUser true patron]>
     (<["user_002" := mkUser true patron]>
     (<["user_009" := mkUser false patron]>
     (<["staff_001" := mkUser true staff]> ∅))))
    (<[1 := mkBook 3 1 available]>
     (<[2 := mkBook 2 0 checked_out]>
     (<[5 := mkBook 2 2 available]> ∅)))
    (<[1 := mkLoan "user_001" 2 (d 2023 12 27) (d 2024 1 10) None 0 overdue 0]>
     (<[2 := mkLoan "user_002" 1 (d 2024 1 8) (d 2024 1 22) None 2 active 0]>
     (<[3 := mkLoan "user_002" 1 (d 2023 11 1) (d 2023 11 15) (Some (d 2023 11 14)) 0 returned 0]> ∅)))
    4.

(** The row [ProcessLoan] inserts; the columns it does not name take their
    defaults. *)
Definition new_loan (CURDATE : Z) (p_user_id : string) (p_book_id p_loan_days : Z) : Loan :=
  mkLoan p_user_id p_book_id CURDATE (CURDATE + p_loan_days) None 0 active 0.

(** The book row after the UPDATE of [ProcessLoan]: the CASE is evaluated
    on the row whose [available_copies] has been decremented already. *)
Definition lent (b : Book) : Book :=
  mkBook (total_copies b) (available_copies b - 1)
         (if decide (available_copies b - 1 - 1 = 0) then checked_out else book_status b).

(** [SELECT COUNT( * ) FROM loans WHERE user_id = p_user_id AND status = 'overdue'] *)
Definition overdue_count (p_user_id : string) (db : DB) : Z :=
  COUNT_loans (λ l, user_id l = p_user_id ∧ status l = overdue) (loans db).

(** The two writes of [ProcessLoan]. *)
Definition ProcessLoan_writes (CURDATE : Z) (u : string) (k n : Z) : M unit :=
  INSERT_loans (new_loan CURDATE u k n);;
  UPDATE_books
    [ (λ b, set_available_copies (available_copies b - 1) b);
      (λ b, set_book_status (if decide (available_copies b - 1 = 0)
                             then checked_out else book_status b) b) ]
    k.

(** The book row after the UPDATE of [createLoan]. *)
Definition lent_ts (b : Book) : Book :=
  mkBook (total_copies b) (available_copies b - 1)
         (if decide (available_copies b - 1 - 1 = 0) then checked_out else available).

(** The fine policy: 0.50 per whole day past the due date. *)
Definition fine_policy (return_date due_date : Z) : Z :=
  if decide (return_date > due_date) then (return_date - due_date) * 50 else 0.

(** The loan row after the UPDATE of [ReturnBook]. *)
Definition returned_row (v_return_date v_fine : Z) (l : Loan) : Loan :=
  mkLoan (user_id l) (book_id l) (loan_date l) (due_date l)
         (Some v_return_date) (renew_count l) returned v_fine.

(** The book row after the UPDATE of [ReturnBook] and of [returnBook]. *)
Definition back_on_shelf (b : Book) : Book :=
  mkBook (total_copies b) (available_copies b + 1) available.




(** ** Administration: books and members *)

Module Admin.
Import Storage.

Inductive Body :=
| message (m : string)
| book_json (b : option Book)
| user_json (u : option User).

Record Response := json { code : Z; body : Body }.

(** [try { ... } catch (error) { res.status(500).json({ message }) }] *)
Definition try_catch (handler : M Response) (failed : string) : DB → Response * DB :=
  λ db, match handler db with
        | (inr res, db') => (res, db')
        | (inl _, db') => (json 500 (message failed), db')
        end.

Definition set_total_copies (v : Z) (b : Book) : Book :=
  mkBook v (available_copies b) (book_status b).
Definition set_is_active (v : bool) (u : User) : User :=
  mkUser v (role u).

(** [Partial<InsertBook>], the columns modelled. *)
Record PartialBook := mkPartialBook {
  p_totalCopies : option Z;
  p_availableCopies : option Z;
  p_status : option BookStatus
}.

Definition book_column {A} (v : option A) (set : A → Book → Book) : list (Book → Book) :=
  match v with
  | Some a => [set a]
  | None => []
  end.

Definition partial_book_set (book : PartialBook) : list (Book → Book) :=
  book_column (p_totalCopies book) set_total_copies ++
  book_column (p_availableCopies book) set_available_copies ++
  book_column (p_status book) set_book_status.

(** [UPDATE users SET ... WHERE id = k], on the columns modelled; returns the
    updated row, if any.  [users] has no CHECK constraint; its AFTER UPDATE
    trigger writes to [audit_log], a table outside the ones modelled. *)
Definition UPDATE_users (assignments : list (User → User)) (k : string)
    : M (option User) :=
  λ db,
    match users db !! k with
    | None => (inr None, db)
    | Some OLD =>
      let NEW := SET assignments OLD in
      (inr (Some NEW),
       mkDB (<[k := NEW]> (users db)) (books db) (loans db) (loans_auto_increment db))
    end.

(** [async updateBook(id, book)] *)
Definition updateBook (id : Z) (book : PartialBook) : M (option Book) :=
  UPDATE_books (partial_book_set book) id;;
  query (λ db, books db !! id).

(** [async deactivateMember(id)] *)
Definition deactivateMember (id : string) : M (option User) :=
  UPDATE_users [ set_is_active false ] id.

(** [app.put('/api/books/:id', isAuthenticated, ...)]; the request body is
    one that [insertBookSchema.partial().parse] accepts. *)
Definition put_api_books (sub : string) (id : Z) (req_body : PartialBook)
    : DB → Response * DB :=
  try_catch (
    user ← getUser sub;
    match user with
    | Some u =>
      if decide (role u ≠ staff)
      then mret (json 403 (message "Access denied. Staff only."))
      else book ← updateBook id req_body; mret (json 200 (book_json book))
    | None => mret (json 403 (message "Access denied. Staff only."))
    end) "Failed to update book".

(** [app.post('/api/members/:id/deactivate', isAuthenticated, ...)] *)
Definition post_api_members_deactivate (sub : string) (id : string)
    : DB → Response * DB :=
  try_catch (
    user ← getUser sub;
    match user with
    | Some u =>
      if decide (role u ≠ staff)
      then mret (json 403 (message "Access denied. Staff only."))
      else member ← deactivateMember id; mret (json 200 (user_json member))
    | None => mret (json 403 (message "Access denied. Staff only."))
    end) "Failed to deactivate member".

(** Every write operation modelled: the loan operations, and the edits of
    books, loans and members. *)
Inductive Edit :=
| loan_operation (op : Operation)
| storage_deleteBook (id : Z)
| storage_updateBook (id : Z) (book : PartialBook)
| storage_updateLoan (today id : Z) (loan : PartialLoan)
| storage_deactivateMember (id : string)
| http_delete_books (sub : string) (id : Z)
| http_put_books (sub : string) (id : Z) (book : PartialBook)
| http_deactivate (sub : string) (id : string).

Definition edit (db : DB) (e : Edit) : DB :=
  match e with
  | loan_operation op => step db op
  | storage_deleteBook k => (deleteBook k db).2
  | storage_updateBook k b => (updateBook k b db).2
  | storage_updateLoan d k l => (updateLoan d k l db).2
  | storage_deactivateMember k => (deactivateMember k db).2
  | http_delete_books sub k => (Routes.delete_api_books sub k db).2
  | http_put_books sub k b => (put_api_books sub k b db).2
  | http_deactivate sub k => (post_api_members_deactivate sub k db).2
  end.

Definition edits (es : list Edit) (db : DB) : DB := fold_left edit es db.

(** Everything [schema.sql] constrains in the tables modelled: the CHECK
    constraints of [books] and [loans], the two FOREIGN KEYs of [loans], and
    an AUTO_INCREMENT counter above every id in use. *)
Definition book_row_ok (b : Book) : Prop :=
  total_copies b >= 0 ∧ copies_in_range b.

Definition loan_row_ok (db : DB) (l : Loan) : Prop :=
  renew_count l <= 2
  ∧ is_Some (users db !! user_id l)
  ∧ is_Some (books db !! book_id l).

Definition schema_constraints (db : DB) : Prop :=
  map_Forall (λ _ b, book_row_ok b) (books db)
  ∧ map_Forall (λ _ l, loan_row_ok db l) (loans db)
  ∧ map_Forall (λ k _, k < loans_auto_increment db) (loans db).

End Admin.

(** ** Authentication ([AuthenticateUser] and [server/simpleAuth.ts]) *)

Module Auth.

(** A row of [users], the columns authentication reads and writes; the
    table is keyed by the primary key [id].  Strings compare by equality. *)
Record Account := mkAccount {
  email : option string;
  password_hash : option string;
  account_role : Role;
  account_is_active : bool;
  failed_login_attempts : Z;
  last_login : option Z
}.

Definition set_failed_login_attempts (v : Z) (a : Account) : Account :=
  mkAccount (email a) (password_hash a) (account_role a) (account_is_active a)
            v (last_login a).
Definition set_last_login (v : option Z) (a : Account) : Account :=
  mkAccount (email a) (password_hash a) (account_role a) (account_is_active a)
            (failed_login_attempts a) v.

(** [CREATE FUNCTION EncryptPassword(plain_password)]:
    [SHA2(CONCAT(plain_password, 'library_salt_2024'), 256)]; the hash
    function itself is a parameter. *)
Definition EncryptPassword (SHA2_256 : string → string) (plain_password : string)
    : string :=
  SHA2_256 (plain_password ++ "library_salt_2024")%string.

(** The OUT parameters of [AuthenticateUser]. *)
Record Out := mkOut {
  p_user_id : option string;
  p_role : option Role;
  p_is_valid : bool
}.

(** [SELECT ... FROM users WHERE email = p_email] *)
Definition rows_with_email (p_email : string) (tbl : gmap string Account)
    : list (string * Account) :=
  map_to_list (filter (λ kv, email kv.2 = Some p_email) tbl).

(** [CREATE PROCEDURE AuthenticateUser(p_email, p_password, OUT p_user_id,
    OUT p_role, OUT p_is_valid)] at time [now].  A SELECT ... INTO that
    finds several rows raises (error 1172) and the call fails; one that finds
    none leaves the variables as they are. *)
Definition AuthenticateUser (SHA2_256 : string → string) (now : Z)
    (p_email p_password : string) (tbl : gmap string Account)
    : option Out * gmap string Account :=
  match rows_with_email p_email tbl with
  | [] => (Some (mkOut None None false), tbl)
  | [(id, row)] =>
    let v_stored_hash := password_hash row in
    let v_is_active := account_is_active row in
    let v_failed_attempts := failed_login_attempts row in
    if v_is_active && bool_decide (v_failed_attempts < 5) then
      if decide (v_stored_hash = Some (EncryptPassword SHA2_256 p_password)) then
        (Some (mkOut (Some id) (Some (account_role row)) true),
         alter (λ a, set_last_login (Some now) (set_failed_login_attempts 0 a)) id tbl)
      else
        (Some (mkOut (Some id) (Some (account_role row)) false),
         alter (λ a, set_failed_login_attempts (failed_login_attempts a + 1) a) id tbl)
    else (Some (mkOut (Some id) (Some (account_role row)) false), tbl)
  | _ :: _ :: _ => (None, tbl)
  end.

(** One call of the procedure: the time, the email and the password. *)
Record Attempt := mkAttempt {
  at_time : Z;
  with_email : string;
  with_password : string
}.

Definition attempt (SHA2_256 : string → string) (tbl : gmap string Account)
    (a : Attempt) : gmap string Account :=
  (AuthenticateUser SHA2_256 (at_time a) (with_email a) (with_password a) tbl).2.

Definition attempts (SHA2_256 : string → string) (l : list Attempt)
    (tbl : gmap string Account) : gmap string Account :=
  fold_left (attempt SHA2_256) l tbl.

(** The in-memory session store of [simpleAuth.ts]. *)
Record Session := mkSession {
  userId : string;
  role : Role;
  expires : Z
}.

Inductive Reply :=
| status_json (code : Z) (message : string)
| next (user_id : string) (user_role : Role)
| logged_in (sessionId : string) (user_id : string) (user_role : Role)
| success (message : string).

Definition one_week : Z := 7 * 24 * 60 * 60 * 1000.

(** [isAuthenticated]: [header] is the [session-id] header of the request,
    [now] is [Date.now()]. *)
Definition isAuthenticated (now : Z) (header : option string)
    (sessions : gmap string Session) : Reply * gmap string Session :=
  match header with
  | None => (status_json 401 "No session provided", sessions)
  | Some sessionId =>
    if decide (sessionId = "") then (status_json 401 "No session provided", sessions)
    else
      match sessions !! sessionId with
      | Some session =>
        if decide (expires session < now)
        then (status_json 401 "Session expired", delete sessionId sessions)
        else (next (userId session) (role session), sessions)
      | None => (status_json 401 "Session expired", delete sessionId sessions)
      end
  end.

(** [login]: [sessionId] is what [generateSessionId()] returned, [now] is
    [Date.now()] (taken as the time of the procedure call as well). *)
Definition login (SHA2_256 : string → string) (now : Z) (sessionId : string)
    (req_email req_password : string)
    (st : gmap string Account * gmap string Session)
    : Reply * (gmap string Account * gmap string Session) :=
  if decide (req_email = "" ∨ req_password = "")
  then (status_json 400 "Email and password required", st)
  else
    match AuthenticateUser SHA2_256 now req_email req_password st.1 with
    | (None, tbl) => (status_json 500 "Authentication failed", (tbl, st.2))
    | (Some authResult, tbl) =>
      if negb (p_is_valid authResult)
      then (status_json 401 "Invalid credentials", (tbl, st.2))
      else
        match p_user_id authResult, p_role authResult with
        | Some user_id, Some user_role =>
          let sessions := <[sessionId := mkSession user_id user_role (now + one_week)]> st.2 in
          match tbl !! user_id with
          | Some _ => (logged_in sessionId user_id user_role, (tbl, sessions))
          | None => (status_json 500 "Authentication failed", (tbl, sessions))
          end
        | _, _ => (status_json 500 "Authentication failed", (tbl, st.2))
        end
    end.

(** [logout] *)
Definition logout (header : option string) (sessions : gmap string Session)
    : Reply * gmap string Session :=
  match header with
  | Some sessionId =>
    if decide (sessionId = "")
    then (success "Logged out successfully", sessions)
    else (success "Logged out successfully", delete sessionId sessions)
  | None => (success "Logged out successfully", sessions)
  end.

End Auth.

(** ** Reports ([getStats], [getOverdueLoans]) *)

Module Reports.

Record Stats := mkStats {
  totalBooks : Z;
  activeLoans : Z;
  overdueItems : Z;
  activeMembers : Z
}.

(** [async getStats()]; [today] is the date of the call. *)
Definition getStats (today : Z) (db : DB) : Stats :=
  mkStats
    (Z.of_nat (size (books db)))
    (COUNT_loans (λ l, status l = active) (loans db))
    (COUNT_loans (λ l, status l = active ∧ due_date l <= today) (loans db))
    (Z.of_nat (size (filter (λ ku, role ku.2 = patron ∧ is_active ku.2 = true)
                            (users db)))).

(** [ORDER BY loans.dueDate] *)
Definition by_due_date (x y : Z * Loan) : Prop := due_date x.2 <= due_date y.2.

#[global] Instance by_due_date_dec x y : Decision (by_due_date x y).
Proof. unfold by_due_date. apply _. Defined.

(** [async getOverdueLoans()]: the loan rows of the result, each with its
    id (the joined book, author, publisher and user are left out). *)
Definition getOverdueLoans (today : Z) (db : DB) : list (Z * Loan) :=
  merge_sort by_due_date
    (map_to_list (filter (λ kl, status kl.2 = active ∧ due_date kl.2 <= today)
                         (loans db))).

End Reports.

(** A stand-in for SHA2 in the examples (the hash function is a parameter
    of the model), and three accounts: Alice, Bob, who has used up his five
    attempts, and Sarah. *)
Definition toy_hash (s : string) : string := ("sha2:" ++ s)%string.

Definition sample_accounts : gmap string Auth.Account :=
  <["user_001" := Auth.mkAccount (Some "alice.johnson@email.com")
      (Some (Auth.EncryptPassword toy_hash "password123")) patron true 0 None]>
  (<["user_002" := Auth.mkAccount (Some "bob.smith@email.com")
      (Some (Auth.EncryptPassword toy_hash "password123")) patron true 5 None]>
  (<["staff_001" := Auth.mkAccount (Some "sarah.librarian@library.edu")
      (Some (Auth.EncryptPassword toy_hash "librarian456")) staff true 2 None]> ∅)).

(** Loan [id] is there, belongs to [u] and is stored as ['overdue']. *)
Definition overdue_loan_of (u : string) (id : Z) (db : DB) : Prop :=
  ∃ l, loans db !! id = Some l ∧ status l = overdue ∧ user_id l = u.

(** The operations that return a loan. *)
Definition is_return (op : Operation) : bool :=
  match op with
  | call_ReturnBook _ _ _ | storage_returnBook _ _ | http_post_loans_return _ _ _ => true
  | _ => false
  end.

(** The account with email [e] is row [id], and no call can authenticate
    it: it is inactive, or it has 5 failed attempts or more. *)
Definition refused (e : string) (id : string) (acc : Auth.Account)
    (tbl : gmap string Auth.Account) : Prop :=
  Auth.rows_with_email e tbl = [(id, acc)]
  ∧ ¬ (Auth.account_is_active acc = true ∧ Auth.failed_login_attempts acc < 5).

(** A sequence of edits of the sample database: a book is deleted, lent (it
    is gone), a loan is given to a user who does not exist (refused), a
    book is given more copies on the shelf than it has (refused), a member is
    deactivated, a returned loan is returned again. *)
Definition sample_edits : list Admin.Edit :=
  [ Admin.storage_deleteBook 5;
    Admin.loan_operation (call_ProcessLoan (d 2024 1 12) "user_002" 5 14);
    Admin.storage_updateLoan (d 2024 1 12) 2
      (Storage.mkPartialLoan (Some "nobody") None None None None None None None);
    Admin.http_put_books "staff_001" 1 (Admin.mkPartialBook (Some 1) (Some 4) None);
    Admin.storage_deactivateMember "user_002";
    Admin.loan_operation (storage_returnBook (d 2024 1 13) 3) ].

(** * Properties *)

(** ** Running the monad *)

Lemma run_bind {A B} (m : M A) (k : A → M B) db :
  (m ≫= k) db = match m db with
                | (inl e, db') => (inl e, db')
                | (inr a, db') => k a db'
                end.
Proof. reflexivity. Qed.

Lemma run_query {A} (q : DB → A) db : query q db = (inr (q db), db).
Proof. reflexivity. Qed.

Lemma run_ret {A} (a : A) db : mret (M := M) a db = (inr a, db).
Proof. reflexivity. Qed.

Lemma run_SIGNAL_IF c msg db :
  SIGNAL_IF c msg db = if c then (inl (Signal45000 msg), db) else (inr tt, db).
Proof. by destruct c. Qed.

(** ** COUNT *)

Lemma COUNT_loans_pos (P : Loan → Prop) `{!∀ l, Decision (P l)} ls k l :
  ls !! k = Some l → P l → COUNT_loans P ls > 0.
Proof.
  intros Hk HP. unfold COUNT_loans.
  assert (filter (λ kl : Z * Loan, P kl.2) ls !! k = Some l) as Hf
    by (apply map_lookup_filter_Some; done).
  destruct (size (filter (λ kl : Z * Loan, P kl.2) ls)) eqn:Hsz; [|lia].
  apply map_size_empty_iff in Hsz. rewrite Hsz in Hf. by rewrite lookup_empty in Hf.
Qed.

Lemma COUNT_loans_zero (P : Loan → Prop) `{!∀ l, Decision (P l)} ls :
  COUNT_loans P ls <= 0 → ∀ k l, ls !! k = Some l → ¬ P l.
Proof.
  intros Hc k l Hk HP. pose proof (COUNT_loans_pos P ls k l Hk HP). lia.
Qed.

Lemma COUNT_loans_nonneg (P : Loan → Prop) `{!∀ l, Decision (P l)} ls :
  0 <= COUNT_loans P ls.
Proof. unfold COUNT_loans. lia. Qed.

(** ** Deleting books *)

Lemma prevent_book_deletion_signals db k lid l :
  loans db !! lid = Some l → book_id l = k → open_loan l →
  prevent_book_deletion k db =
    (inl (Signal45000 "Cannot delete book with active loans"), db).
Proof.
  intros Hl Hk Hopen. unfold prevent_book_deletion.
  rewrite run_bind, run_query, run_SIGNAL_IF.
  rewrite bool_decide_eq_true_2; [done|].
  eapply COUNT_loans_pos; [exact Hl|]. split; assumption.
Qed.

(** C10: a book that has a loan in status [active] or [overdue] cannot be
    deleted.  The DELETE that [deleteBook] issues is stopped by the trigger
    [prevent_book_deletion], and neither the storage call nor the HTTP
    handler (whoever the caller is) changes the database: the book row and
    every other row stay as they were, and the handler does not answer 204. *)
Theorem book_with_open_loan_not_deleted db k b lid l :
  books db !! k = Some b →
  loans db !! lid = Some l → book_id l = k → open_loan l →
  Storage.deleteBook k db =
    (inl (Signal45000 "Cannot delete book with active loans"), db)
  ∧ ∀ sub, (Routes.delete_api_books sub k db).2 = db
           ∧ Routes.code (Routes.delete_api_books sub k db).1 ≠ 204
           ∧ books (Routes.delete_api_books sub k db).2 !! k = Some b.
Proof.
  intros Hb Hl Hk Hopen.
  assert (Storage.deleteBook k db =
    (inl (Signal45000 "Cannot delete book with active loans"), db)) as Hdel.
  { unfold Storage.deleteBook, DELETE_books. rewrite Hb.
    by rewrite (prevent_book_deletion_signals db k lid l). }
  split; [exact Hdel|]. intros sub.
  unfold Routes.delete_api_books, Routes.try_catch.
  rewrite run_bind. unfold Storage.getUser. rewrite run_query.
  destruct (users db !! sub) as [u|]; [|by rewrite run_ret].
  destruct (decide (role u ≠ staff)); [by rewrite run_ret|].
  rewrite run_bind, Hdel. done.
Qed.

Lemma book_with_open_loan_not_deleted_witness :
  Storage.deleteBook 2 sample_db =
    (inl (Signal45000 "Cannot delete book with active loans"), sample_db)
  ∧ ∀ sub, (Routes.delete_api_books sub 2 sample_db).2 = sample_db
           ∧ Routes.code (Routes.delete_api_books sub 2 sample_db).1 ≠ 204
           ∧ books (Routes.delete_api_books sub 2 sample_db).2 !! 2
             = Some (mkBook 2 0 checked_out).
Proof.
  apply (book_with_open_loan_not_deleted sample_db 2 (mkBook 2 0 checked_out) 1
           (mkLoan "user_001" 2 (d 2023 12 27) (d 2024 1 10) None 0 overdue 0)).
  - reflexivity.
  - reflexivity.
  - reflexivity.
  - right. reflexivity.
Defined.

(** ** Updating loans *)

Lemma SET_nil {R} (row : R) : SET [] row = row.
Proof. reflexivity. Qed.

Lemma SET_cons {R} (a : R → R) (rest : list (R → R)) (row : R) :
  SET (a :: rest) row = SET rest (a row).
Proof. reflexivity. Qed.

Lemma UpdateOverdueLoans_fields CURDATE NEW :
  let l := UpdateOverdueLoans CURDATE NEW in
  user_id l = user_id NEW ∧ book_id l = book_id NEW ∧ loan_date l = loan_date NEW ∧
  due_date l = due_date NEW ∧ return_date l = return_date NEW ∧
  renew_count l = renew_count NEW ∧ fine l = fine NEW.
Proof. unfold UpdateOverdueLoans. by case_decide. Qed.

Lemma UpdateOverdueLoans_not_active CURDATE NEW :
  status NEW ≠ active → UpdateOverdueLoans CURDATE NEW = NEW.
Proof. intros H. unfold UpdateOverdueLoans. case_decide; [tauto|done]. Qed.

(** An UPDATE of [loans] that leaves the two reference columns alone passes
    the foreign keys. *)
Lemma loans_foreign_keys_same db OLD NEW :
  user_id NEW = user_id OLD → book_id NEW = book_id OLD →
  loans_foreign_keys db (Some OLD) NEW = None.
Proof.
  intros Hu Hb. unfold loans_foreign_keys. simpl. rewrite Hu, Hb.
  case_decide; [tauto|]. case_decide; [tauto|]. done.
Qed.

Lemma UPDATE_loans_run today a k db OLD :
  loans db !! k = Some OLD →
  user_id (SET a OLD) = user_id OLD → book_id (SET a OLD) = book_id OLD →
  UPDATE_loans today a k db =
    let NEW := UpdateOverdueLoans today (SET a OLD) in
    if decide (renew_count NEW <= 2)
    then (inr (Some NEW), with_loans (<[k := NEW]> (loans db)) db)
    else (inl (CheckViolated "loans_chk_1"), db).
Proof.
  intros Hk Hu Hb. unfold UPDATE_loans. rewrite Hk. cbv zeta.
  pose proof (UpdateOverdueLoans_fields today (SET a OLD)) as HF. cbv zeta in HF.
  destruct HF as (Hfu & Hfb & _).
  unfold loans_checks.
  destruct (decide (renew_count (UpdateOverdueLoans today (SET a OLD)) <= 2)).
  - rewrite decide_False by tauto.
    rewrite loans_foreign_keys_same; [done|congruence|congruence].
  - by rewrite decide_True.
Qed.

(** The storage call on its own: at the limit the UPDATE is rejected by
    [CHECK (renew_count <= 2)] and the row stays as it was. *)
Lemma renewLoan_rejected_by_check today id l db :
  loans db !! id = Some l → renew_count l >= 2 →
  Storage.renewLoan today id db = (inl (CheckViolated "loans_chk_1"), db).
Proof.
  intros Hl Hge. unfold Storage.renewLoan.
  rewrite (UPDATE_loans_run _ _ _ _ l) by done.
  cbv zeta. rewrite decide_False; [done|].
  pose proof (UpdateOverdueLoans_fields today
    (SET [ (λ l, set_renew_count (renew_count l + 1) l);
           (λ l, set_due_date (DATE_ADD_DAY (due_date l) 14) l) ] l)) as HF.
  cbv zeta in HF. destruct HF as (_ & _ & _ & _ & _ & Hfr & _).
  rewrite Hfr. simpl. lia.
Qed.



(** The renewals of the specification's examples: from [renew_count = 0] and
    a due date of 2024-02-01 to [renew_count = 1] and 2024-02-15; a third
    renewal is refused. *)
Example renew_2024_02_01 :
  let db := mkDB {[ "user_001" := mkUser true patron ]} {[ 1 := mkBook 1 0 checked_out ]}
                 {[ 7 := mkLoan "user_001" 1 (d 2024 1 18) (d 2024 2 1) None 0 active 0 ]} 8 in
  (Routes.post_api_loans_renew (d 2024 1 30) "user_001" 7 db).1
  = Routes.json 200 (Routes.row_json
      (Some (mkLoan "user_001" 1 (d 2024 1 18) (d 2024 2 15) None 1 active 0))).
Proof. vm_compute. reflexivity. Qed.

Example renew_third_time :
  (Routes.post_api_loans_renew (d 2024 1 20) "user_002" 2 sample_db)
  = (Routes.json 400 (Routes.message "Maximum renewals reached"), sample_db).
Proof. reflexivity. Qed.

(** ** Invariants of computations *)

Section preservation.
Variable I : DB → Prop.

Lemma preserves_ret {A} (a : A) : preserves I (mret a).
Proof. intros db H. exact H. Qed.

Lemma preserves_throw {A} e : preserves I (throw (A := A) e).
Proof. intros db H. exact H. Qed.

Lemma preserves_query {A} (q : DB → A) : preserves I (query q).
Proof. intros db H. exact H. Qed.

Lemma preserves_SIGNAL_IF c msg : preserves I (SIGNAL_IF c msg).
Proof. intros db H. rewrite run_SIGNAL_IF. by destruct c. Qed.

Lemma preserves_SELECT_INTO {A R} (dflt : A) (t : DB → gmap Z R) e k :
  preserves I (SELECT_INTO dflt t e k).
Proof. apply preserves_query. Qed.

Lemma preserves_bind {A B} (m : M A) (k : A → M B) :
  preserves I m → (∀ a, preserves I (k a)) → preserves I (m ≫= k).
Proof.
  intros Hm Hk db H. rewrite run_bind. specialize (Hm db H).
  destruct (m db) as [[e|a] db1]; simpl in *; [exact Hm|]. by apply Hk.
Qed.

Lemma preserves_transaction {A} (body : M A) :
  preserves I body → preserves I (transaction body).
Proof.
  intros Hb db H. unfold transaction. specialize (Hb db H).
  destruct (body db) as [[e|a] db1]; simpl in *; assumption.
Qed.

Lemma preserves_try_catch handler failed db :
  preserves I handler → I db → I (Routes.try_catch handler failed db).2.
Proof.
  intros Hh H. unfold Routes.try_catch. specialize (Hh db H).
  destruct (handler db) as [[e|a] db1]; simpl in *; assumption.
Qed.

End preservation.

Ltac preserves_step :=
  first
    [ apply preserves_transaction
    | apply preserves_bind; [|intros ?]
    | apply preserves_ret
    | apply preserves_throw
    | apply preserves_SIGNAL_IF
    | apply preserves_SELECT_INTO
    | apply preserves_query
    | match goal with
      | |- preserves _ (match ?x with _ => _ end) => destruct x
      | |- preserves _ (let _ := _ in _) => cbv zeta
      end ].

(** ** The inventory invariant *)

Lemma books_checks_None b :
  books_checks b = None ↔ total_copies b >= 0 ∧ copies_in_range b.
Proof.
  unfold books_checks, copies_in_range.
  repeat case_decide; split; intros; try done; lia.
Qed.

Lemma inventory_INSERT_loans row : preserves inventory_invariant (INSERT_loans row).
Proof.
  intros db H. unfold INSERT_loans.
  case_decide; [done|].
  destruct (loans_checks row); [done|].
  destruct (loans_foreign_keys db None row); done.
Qed.

Lemma inventory_UPDATE_loans d a k : preserves inventory_invariant (UPDATE_loans d a k).
Proof.
  intros db H. unfold UPDATE_loans.
  destruct (loans db !! k); [|done].
  destruct (loans_checks _); [done|].
  destruct (loans_foreign_keys _ _ _); done.
Qed.

(** Whatever the SET clause computes, the CHECK constraints of [books] let
    only rows in range through. *)
Lemma inventory_UPDATE_books a k : preserves inventory_invariant (UPDATE_books a k).
Proof.
  intros db H. unfold UPDATE_books.
  destruct (books db !! k) as [OLD|]; [|done].
  destruct (books_checks (SET a OLD)) eqn:Hc; [done|].
  apply books_checks_None in Hc as [_ Hc]. simpl.
  unfold inventory_invariant. simpl. by apply map_Forall_insert_2.
Qed.

Lemma inventory_ProcessLoan d u k n : preserves inventory_invariant (ProcessLoan d u k n).
Proof.
  unfold ProcessLoan.
  repeat first [ apply inventory_INSERT_loans | apply inventory_UPDATE_books | preserves_step ].
Qed.

Lemma inventory_ReturnBook d k r : preserves inventory_invariant (ReturnBook d k r).
Proof.
  unfold ReturnBook.
  repeat first [ apply inventory_UPDATE_loans | apply inventory_UPDATE_books | preserves_step ].
Qed.

Lemma inventory_createLoan loan : preserves inventory_invariant (Storage.createLoan loan).
Proof.
  unfold Storage.createLoan.
  repeat first [ apply inventory_INSERT_loans | apply inventory_UPDATE_books | preserves_step ].
Qed.

Lemma inventory_returnBook d k : preserves inventory_invariant (Storage.returnBook d k).
Proof.
  unfold Storage.returnBook.
  repeat first [ apply inventory_UPDATE_loans | apply inventory_UPDATE_books | preserves_step ].
Qed.

Lemma inventory_renewLoan d k : preserves inventory_invariant (Storage.renewLoan d k).
Proof. apply inventory_UPDATE_loans. Qed.

Lemma inventory_step db op : inventory_invariant db → inventory_invariant (step db op).
Proof.
  intros H. destruct op; cbn [step];
    unfold Routes.post_api_loans, Routes.post_api_loans_simple,
      Routes.post_api_loans_return, Routes.post_api_loans_renew.
  - by apply inventory_ProcessLoan.
  - by apply inventory_ReturnBook.
  - by apply inventory_createLoan.
  - by apply inventory_returnBook.
  - by apply inventory_renewLoan.
  - apply preserves_try_catch; [|done]. unfold Storage.getUser, Storage.getBook.
    repeat first [ apply inventory_createLoan | preserves_step | case_decide ].
  - apply preserves_try_catch; [|done].
    repeat first [ apply inventory_createLoan | preserves_step ].
  - apply preserves_try_catch; [|done]. unfold Storage.getUser, Storage.getLoan.
    repeat first [ apply inventory_returnBook | preserves_step | case_decide ].
  - apply preserves_try_catch; [|done]. unfold Storage.getUser, Storage.getLoan.
    repeat first [ apply inventory_renewLoan | preserves_step | case_decide ].
Qed.

(** C6: after every sequence of createLoan, returnLoan and renewLoan
    operations (stored procedures, storage calls and HTTP handlers, in any
    order and with any arguments), every book has
    [0 <= available_copies <= total_copies], provided the books had it before
    the sequence (the CHECK constraints of [books] let no other row in). *)
Theorem inventory_invariant_preserved ops db :
  inventory_invariant db →
  ∀ k b, books (run ops db) !! k = Some b →
         0 <= available_copies b ∧ available_copies b <= total_copies b.
Proof.
  intros H. assert (inventory_invariant (run ops db)) as Hrun.
  { revert db H. induction ops as [|op ops IH]; intros db H; [exact H|].
    simpl. apply IH. by apply inventory_step. }
  intros k b Hk. exact (Hrun k b Hk).
Qed.

Lemma inventory_invariant_sample : inventory_invariant sample_db.
Proof.
  unfold inventory_invariant, sample_db. simpl.
  repeat (apply map_Forall_insert_2; [unfold copies_in_range; simpl; lia|]).
  apply map_Forall_empty.
Qed.

Lemma inventory_invariant_preserved_witness :
  inventory_invariant sample_db
  ∧ ∀ k b,
      books (run [ call_ProcessLoan (d 2024 1 12) "user_002" 5 14;
                   http_post_loans_return (d 2024 1 12) "staff_001" 3;
                   storage_returnBook (d 2024 1 13) 3;
                   storage_returnBook (d 2024 1 13) 3;
                   http_post_loans_simple
                     (Storage.mkInsertLoan "user_002" 2 (d 2024 1 13) (d 2024 1 27)
                        None None None None);
                   call_ReturnBook (d 2024 1 15) 1 None ] sample_db) !! k = Some b →
      0 <= available_copies b ∧ available_copies b <= total_copies b.
Proof.
  assert (inventory_invariant sample_db) as H.
  { unfold inventory_invariant, sample_db. simpl.
    repeat (apply map_Forall_insert_2; [unfold copies_in_range; simpl; lia|]).
    apply map_Forall_empty. }
  split; [exact H|].
  apply (inventory_invariant_preserved _ sample_db H).
Defined.

(** ** What the statements do when they succeed *)

Lemma INSERT_loans_Ok row db id db1 :
  INSERT_loans row db = (inr id, db1) →
  id = loans_auto_increment db
  ∧ loans db !! id = None
  ∧ renew_count row <= 2
  ∧ is_Some (users db !! user_id row)
  ∧ is_Some (books db !! book_id row)
  ∧ db1 = mkDB (users db) (books db) (<[id := row]> (loans db)) (id + 1).
Proof.
  unfold INSERT_loans, loans_checks, loans_foreign_keys. simpl.
  destruct (decide (is_Some (loans db !! loans_auto_increment db))) as [|Hfresh]; [done|].
  destruct (decide (¬ renew_count row <= 2)) as [|Hrc]; [done|].
  destruct (decide (None ≠ Some (user_id row) ∧ users db !! user_id row = None)) as [|Hu]; [done|].
  destruct (decide (None ≠ Some (book_id row) ∧ books db !! book_id row = None)) as [|Hb]; [done|].
  intros [= <- <-]. repeat split.
  - by apply eq_None_not_Some.
  - lia.
  - destruct (users db !! user_id row); [by eexists|]. exfalso. apply Hu. done.
  - destruct (books db !! book_id row); [by eexists|]. exfalso. apply Hb. done.
Qed.

Lemma INSERT_loans_Err row db e db1 :
  INSERT_loans row db = (inl e, db1) → db1 = db.
Proof.
  unfold INSERT_loans.
  repeat first [ case_decide | destruct (loans_checks _) | destruct (loans_foreign_keys _ _ _) ];
    by intros [= <- <-].
Qed.

Lemma UPDATE_books_run a k db OLD :
  books db !! k = Some OLD →
  UPDATE_books a k db =
    if decide (total_copies (SET a OLD) >= 0 ∧ copies_in_range (SET a OLD))
    then (inr tt, with_books (<[k := SET a OLD]> (books db)) db)
    else (inl (default TypeError (books_checks (SET a OLD))), db).
Proof.
  intros Hk. unfold UPDATE_books. rewrite Hk.
  destruct (books_checks (SET a OLD)) eqn:Hc.
  - rewrite decide_False; [done|]. intros H. apply books_checks_None in H. congruence.
  - rewrite decide_True; [done|]. by apply books_checks_None.
Qed.

Lemma UPDATE_books_Err a k db e db1 :
  UPDATE_books a k db = (inl e, db1) → db1 = db.
Proof.
  unfold UPDATE_books. destruct (books db !! k); [|done].
  destruct (books_checks _); by intros [= <- <-].
Qed.

Lemma UPDATE_loans_Err today a k db e db1 :
  UPDATE_loans today a k db = (inl e, db1) → db1 = db.
Proof.
  unfold UPDATE_loans. destruct (loans db !! k); [|done].
  destruct (loans_checks _); [by intros [= <- <-]|].
  destruct (loans_foreign_keys _ _ _); by intros [= <- <-].
Qed.

(** ** ProcessLoan *)

Lemma transaction_Err {A} (body : M A) db e db1 :
  transaction body db = (inl e, db1) → db1 = db.
Proof.
  unfold transaction. destruct (body db) as [[?|?] ?]; by intros [= <- <-].
Qed.

(** The three guards of [ProcessLoan], in the order the procedure tests
    them, and the two writes behind them. *)
Lemma ProcessLoan_run CURDATE u k n db :
  ProcessLoan CURDATE u k n db =
    if decide (default 0 (available_copies <$> books db !! k) <= 0)
    then (inl (Signal45000 "Book not available for loan"), db)
    else if negb (default false (is_active <$> users db !! u))
    then (inl (Signal45000 "User account is not active"), db)
    else if decide (overdue_count u db > 0)
    then (inl (Signal45000 "User has overdue items"), db)
    else transaction (ProcessLoan_writes CURDATE u k n) db.
Proof.
  unfold ProcessLoan, transaction, SELECT_INTO.
  rewrite run_bind, run_query.
  assert (match books db !! k with Some row => available_copies row | None => 0 end
          = default 0 (available_copies <$> books db !! k)) as ->
    by (by destruct (books db !! k)).
  rewrite run_bind, run_query.
  assert (match users db !! u with Some u0 => is_active u0 | None => false end
          = default false (is_active <$> users db !! u)) as ->
    by (by destruct (users db !! u)).
  rewrite run_bind, run_query. fold (overdue_count u db).
  rewrite run_bind, run_SIGNAL_IF.
  destruct (decide (_ <= 0)) as [Hle|Hgt].
  { by rewrite bool_decide_eq_true_2. }
  rewrite bool_decide_eq_false_2 by done.
  rewrite run_bind, run_SIGNAL_IF.
  destruct (negb _); [done|].
  rewrite run_bind, run_SIGNAL_IF.
  destruct (decide (overdue_count u db > 0)) as [Hov|Hno].
  { by rewrite bool_decide_eq_true_2. }
  rewrite bool_decide_eq_false_2 by done.
  reflexivity.
Qed.

Lemma ProcessLoan_writes_Ok CURDATE u k n db db1 :
  ProcessLoan_writes CURDATE u k n db = (inr tt, db1) →
  ∃ b, books db !! k = Some b
       ∧ is_Some (users db !! u)
       ∧ loans db !! loans_auto_increment db = None
       ∧ copies_in_range (lent b)
       ∧ db1 = mkDB (users db) (<[k := lent b]> (books db))
                    (<[loans_auto_increment db := new_loan CURDATE u k n]> (loans db))
                    (loans_auto_increment db + 1).
Proof.
  unfold ProcessLoan_writes. rewrite run_bind.
  destruct (INSERT_loans _ db) as [[e|id] db0] eqn:Hins; [done|].
  apply INSERT_loans_Ok in Hins as (-> & Hfresh & _ & Hu & [b Hb] & ->).
  simpl in Hb, Hu.
  rewrite (UPDATE_books_run _ _ _ b) by done.
  rewrite !SET_cons, SET_nil. simpl.
  case_decide as Hc; [|done]. intros [= <-].
  exists b. repeat split; try done; apply Hc.
Qed.

Lemma ProcessLoan_writes_total CURDATE u k n db b :
  books db !! k = Some b → is_Some (users db !! u) →
  loans db !! loans_auto_increment db = None →
  available_copies b > 0 → copies_in_range b →
  ProcessLoan_writes CURDATE u k n db =
    (inr tt, mkDB (users db) (<[k := lent b]> (books db))
                  (<[loans_auto_increment db := new_loan CURDATE u k n]> (loans db))
                  (loans_auto_increment db + 1)).
Proof.
  intros Hb Hu Hfresh Hpos [H0 Hle].
  unfold ProcessLoan_writes. rewrite run_bind.
  unfold INSERT_loans. rewrite decide_False by (rewrite Hfresh; by intros [? ?]).
  unfold loans_checks. simpl.
  unfold loans_foreign_keys. simpl.
  rewrite decide_False by (intros [_ Hn]; rewrite Hn in Hu; by destruct Hu).
  rewrite decide_False by (intros [_ Hn]; congruence).
  rewrite (UPDATE_books_run _ _ _ b) by done.
  rewrite !SET_cons, SET_nil. simpl.
  rewrite decide_True; [done|]. unfold copies_in_range. simpl. lia.
Qed.

(** [ProcessLoan] is all-or-nothing: when it raises, the database is the one
    it started from; when it returns, the loan row is there and the book
    has one copy less. *)
Lemma ProcessLoan_atomic CURDATE u k n db r db1 :
  ProcessLoan CURDATE u k n db = (r, db1) →
  (∃ e, r = inl e ∧ db1 = db)
  ∨ (r = inr tt ∧ ∃ b,
       books db !! k = Some b
       ∧ loans db !! loans_auto_increment db = None
       ∧ loans db1 = <[loans_auto_increment db := new_loan CURDATE u k n]> (loans db)
       ∧ books db1 = <[k := lent b]> (books db)
       ∧ available_copies (lent b) = available_copies b - 1).
Proof.
  intros Hrun. destruct r as [e|[]].
  - left. exists e. split; [done|].
    unfold ProcessLoan in Hrun. by apply transaction_Err in Hrun.
  - right. split; [done|].
    rewrite ProcessLoan_run in Hrun.
    repeat (case_match; [done|]).
    unfold transaction in Hrun.
    destruct (ProcessLoan_writes _ _ _ _ db) as [[e|[]] db2] eqn:Hw; [done|].
    injection Hrun as <-.
    apply ProcessLoan_writes_Ok in Hw as (b & Hb & _ & Hfresh & _ & ->).
    exists b. done.
Qed.

(** [ProcessLoan] returns exactly when the book has a copy on the shelf, the
    patron is active and the patron has no loan in status [overdue]; each
    guard that fails raises its own message and nothing is written. *)
Lemma ProcessLoan_guards CURDATE u k n db :
  inventory_invariant db →
  loans db !! loans_auto_increment db = None →
  let avail := default 0 (available_copies <$> books db !! k) in
  let act := default false (is_active <$> users db !! u) in
  ((ProcessLoan CURDATE u k n db).1 = inr tt
     ↔ avail > 0 ∧ act = true ∧ overdue_count u db = 0)
  ∧ (avail <= 0 →
       ProcessLoan CURDATE u k n db
       = (inl (Signal45000 "Book not available for loan"), db))
  ∧ (avail > 0 → act = false →
       ProcessLoan CURDATE u k n db
       = (inl (Signal45000 "User account is not active"), db))
  ∧ (avail > 0 → act = true → overdue_count u db > 0 →
       ProcessLoan CURDATE u k n db
       = (inl (Signal45000 "User has overdue items"), db)).
Proof.
  intros Hinv Hfresh avail act. rewrite ProcessLoan_run. fold avail act.
  pose proof (COUNT_loans_nonneg (λ l, user_id l = u ∧ status l = overdue) (loans db)) as Hnn.
  fold (overdue_count u db) in Hnn.
  split; [|repeat split].
  - destruct (decide (avail <= 0)); [simpl; split; [done|lia]|].
    destruct act eqn:Hact; simpl; [|split; [done|intros (_ & ? & _); done]].
    destruct (decide (overdue_count u db > 0)); [simpl; split; [done|lia]|].
    split; [lia|]. intros _.
    subst avail act.
    destruct (books db !! k) as [b|] eqn:Hb; simpl in *; [|lia].
    destruct (users db !! u) as [usr|] eqn:Hu; simpl in *; [|done].
    unfold transaction.
    rewrite (ProcessLoan_writes_total _ _ _ _ _ b); try done; [lia|].
    exact (Hinv k b Hb).
  - intros Hle. by rewrite decide_True.
  - intros Hgt Hact. rewrite decide_False by lia. by rewrite Hact.
  - intros Hgt Hact Hov. rewrite decide_False by lia. rewrite Hact. simpl.
    by rewrite decide_True.
Qed.

(** ** createLoan in the storage layer *)

Lemma createLoan_Ok loan db id row db1 :
  Storage.createLoan loan db = (inr (id, row), db1) →
  ∃ b, books db !! Storage.bookId loan = Some b
       ∧ id = loans_auto_increment db
       ∧ row = Storage.values loan
       ∧ loans db !! id = None
       ∧ renew_count row <= 2
       ∧ copies_in_range (lent_ts b)
       ∧ db1 = mkDB (users db) (<[Storage.bookId loan := lent_ts b]> (books db))
                    (<[id := row]> (loans db)) (id + 1).
Proof.
  unfold Storage.createLoan. rewrite run_bind.
  destruct (INSERT_loans _ db) as [[e|id0] db0] eqn:Hins; [done|].
  apply INSERT_loans_Ok in Hins as (-> & Hfresh & Hrc & Hu & [b Hb] & ->).
  simpl in Hb. rewrite run_bind.
  rewrite (UPDATE_books_run _ _ _ b) by done.
  rewrite !SET_cons, SET_nil. simpl.
  case_decide as Hc; [|done]. rewrite run_ret. intros [= <- <- <-].
  exists b. repeat split; try done; apply Hc.
Qed.

(** C1, evaluated on the storage layer: book 2 has no copy on the shelf; the
    INSERT of [createLoan] is executed and stays, the UPDATE of the book is
    rejected by [CHECK (available_copies >= 0)], and the call ends with a new
    loan row and an unchanged inventory.  The handler that posts the body to
    the storage layer answers 500 and leaves the same database behind.  The
    stored procedure, called with the same arguments, writes nothing. *)
Theorem createLoan_partial_write :
  let loan := Storage.mkInsertLoan "user_002" 2 (d 2024 1 13) (d 2024 1 27)
                                   None None None None in
  let r := Storage.createLoan loan sample_db in
  r.1 = inl (CheckViolated "books_chk_2")
  ∧ loans sample_db !! 4 = None
  ∧ loans r.2 !! 4 = Some (Storage.values loan)
  ∧ books r.2 = books sample_db
  ∧ Routes.post_api_loans_simple loan sample_db
    = (Routes.json 500 (Routes.message "Failed to create loan"), r.2)
  ∧ ProcessLoan (d 2024 1 13) "user_002" 2 14 sample_db
    = (inl (Signal45000 "Book not available for loan"), sample_db).
Proof. vm_compute. repeat split; reflexivity. Qed.

(** C2, evaluated on the HTTP handler: the handler tests the copies on the
    shelf and nothing else.  An inactive patron (user_009) and a patron with
    an overdue loan (user_001) both get 201 and a loan on book 5, where
    [ProcessLoan] refuses with its second and its third guard. *)
Theorem post_api_loans_skips_patron_guards :
  let body := Storage.mkInsertLoan "" 5 (d 2024 1 13) (d 2024 1 27)
                                   None None None None in
  (Routes.code (Routes.post_api_loans "user_009" body sample_db).1 = 201
   ∧ user_id <$> loans (Routes.post_api_loans "user_009" body sample_db).2 !! 4
     = Some "user_009"
   ∧ is_active <$> users sample_db !! "user_009" = Some false
   ∧ ProcessLoan (d 2024 1 13) "user_009" 5 14 sample_db
     = (inl (Signal45000 "User account is not active"), sample_db))
  ∧ (Routes.code (Routes.post_api_loans "user_001" body sample_db).1 = 201
     ∧ user_id <$> loans (Routes.post_api_loans "user_001" body sample_db).2 !! 4
       = Some "user_001"
     ∧ overdue_count "user_001" sample_db = 1
     ∧ ProcessLoan (d 2024 1 13) "user_001" 5 14 sample_db
       = (inl (Signal45000 "User has overdue items"), sample_db)).
Proof. vm_compute. repeat split; reflexivity. Qed.

(** The guard the handler does have: without a copy on the shelf it answers
    400 and writes nothing. *)
Lemma post_api_loans_unavailable sub body db b :
  books db !! Storage.bookId body = Some b → available_copies b <= 0 →
  is_Some (users db !! sub) →
  Routes.post_api_loans sub body db
  = (Routes.json 400 (Routes.message "Book is not available"), db).
Proof.
  intros Hb Hle [u Hu]. unfold Routes.post_api_loans, Routes.try_catch.
  unfold Storage.getUser, Storage.getBook.
  rewrite run_bind, run_query, Hu. cbv zeta. rewrite run_bind, run_query. simpl.
  rewrite Hb. by rewrite decide_True.
Qed.

(** Without a copy on the shelf the storage call keeps the loan row it has
    inserted and fails on the book: this is the general form of the partial
    write. *)
Lemma createLoan_without_copy loan db b :
  books db !! Storage.bookId loan = Some b →
  available_copies b <= 0 → total_copies b >= 0 →
  is_Some (users db !! Storage.userId loan) →
  loans db !! loans_auto_increment db = None →
  default 0 (Storage.renewalCount loan) <= 2 →
  Storage.createLoan loan db =
    (inl (CheckViolated "books_chk_2"),
     mkDB (users db) (books db)
          (<[loans_auto_increment db := Storage.values loan]> (loans db))
          (loans_auto_increment db + 1)).
Proof.
  intros Hb Hle Ht Hu Hfresh Hrc. unfold Storage.createLoan. rewrite run_bind.
  unfold INSERT_loans. rewrite decide_False by (rewrite Hfresh; by intros [? ?]).
  unfold loans_checks. simpl. rewrite decide_False by lia.
  unfold loans_foreign_keys. simpl.
  rewrite decide_False by (intros [_ Hn]; rewrite Hn in Hu; by destruct Hu).
  rewrite decide_False by (intros [_ Hn]; congruence).
  rewrite run_bind. unfold UPDATE_books. simpl. rewrite Hb.
  unfold books_checks. simpl.
  rewrite decide_False by lia. rewrite decide_True by lia. done.
Qed.

(** With a copy on the shelf the handler lends it to any patron who is
    logged in: neither [is_active] nor the patron's overdue loans are
    looked at. *)
Lemma post_api_loans_available sub u body db b :
  users db !! sub = Some u → role u = patron →
  books db !! Storage.bookId body = Some b →
  available_copies b > 0 → copies_in_range b →
  loans db !! loans_auto_increment db = None →
  default 0 (Storage.renewalCount body) <= 2 →
  ∃ row db1,
    Routes.post_api_loans sub body db
    = (Routes.json 201 (Routes.loan_json (loans_auto_increment db) row), db1)
    ∧ user_id row = sub
    ∧ loans db1 !! loans_auto_increment db = Some row
    ∧ available_copies <$> books db1 !! Storage.bookId body
      = Some (available_copies b - 1).
Proof.
  intros Hu Hrole Hb Hpos [H0 Hle] Hfresh Hrc.
  unfold Routes.post_api_loans, Routes.try_catch.
  unfold Storage.getUser, Storage.getBook.
  rewrite run_bind, run_query, Hu. cbv zeta. rewrite run_bind, run_query. simpl.
  rewrite Hb. rewrite decide_False by lia. rewrite decide_True by done.
  rewrite run_bind. unfold Storage.createLoan. rewrite run_bind.
  unfold INSERT_loans. rewrite decide_False by (rewrite Hfresh; by intros [? ?]).
  unfold loans_checks. simpl. rewrite decide_False by lia.
  unfold loans_foreign_keys. simpl.
  rewrite decide_False by (intros [_ Hn]; congruence).
  rewrite decide_False by (intros [_ Hn]; congruence).
  rewrite run_bind. rewrite (UPDATE_books_run _ _ _ b) by done.
  rewrite !SET_cons, SET_nil. simpl.
  rewrite decide_True by (unfold copies_in_range; simpl; lia).
  rewrite !run_ret. simpl. eexists _, _. split; [reflexivity|]. simpl.
  rewrite !lookup_insert_eq. done.
Qed.

(** ** ReturnBook *)

(** A loan that is stored as [active]: the fine follows the policy, also
    when the due date has passed and no UPDATE has moved the row to
    [overdue] yet. *)
Lemma ReturnBook_active CURDATE id r db l b :
  loans db !! id = Some l → status l = active → renew_count l <= 2 →
  books db !! book_id l = Some b →
  0 <= available_copies b → available_copies b < total_copies b →
  ReturnBook CURDATE id r db =
    (inr tt,
     mkDB (users db)
          (<[book_id l := back_on_shelf b]> (books db))
          (<[id := returned_row (default CURDATE r)
                    (fine_policy (default CURDATE r) (due_date l)) l]> (loans db))
          (loans_auto_increment db)).
Proof.
  intros Hl Hst Hrc Hb H0 Hlt.
  unfold ReturnBook, transaction. cbv zeta.
  rewrite run_bind, run_query, Hl. rewrite decide_True by done. simpl.
  rewrite run_bind.
  rewrite (UPDATE_loans_run _ _ _ _ l) by done.
  rewrite !SET_cons, SET_nil. cbv zeta.
  rewrite UpdateOverdueLoans_not_active by done. simpl.
  rewrite decide_True by done.
  rewrite (UPDATE_books_run _ _ _ b) by done.
  rewrite !SET_cons, SET_nil. simpl.
  rewrite decide_True by (unfold copies_in_range; simpl; lia).
  unfold returned_row, fine_policy, DATEDIFF, back_on_shelf, with_books. simpl.
  destruct (decide (default CURDATE r > due_date l)).
  - by rewrite bool_decide_eq_true_2.
  - by rewrite bool_decide_eq_false_2.
Qed.

(** A loan that is stored with another status: the SELECT finds no row, the
    fine stays at its declared 0.00, the UPDATE of [loans] is executed all
    the same, and no book is touched. *)
Lemma ReturnBook_not_active CURDATE id r db l :
  loans db !! id = Some l → status l ≠ active → renew_count l <= 2 →
  ReturnBook CURDATE id r db =
    (inr tt, with_loans (<[id := returned_row (default CURDATE r) 0 l]> (loans db)) db).
Proof.
  intros Hl Hst Hrc.
  unfold ReturnBook, transaction. cbv zeta.
  rewrite run_bind, run_query, Hl. rewrite decide_False by done. simpl.
  rewrite run_bind.
  rewrite (UPDATE_loans_run _ _ _ _ l) by done.
  rewrite !SET_cons, SET_nil. cbv zeta.
  rewrite UpdateOverdueLoans_not_active by done. simpl.
  by rewrite decide_True by done.
Qed.

(** No loan with that id: the procedure commits an empty transaction. *)
Lemma ReturnBook_no_loan CURDATE id r db :
  loans db !! id = None → ReturnBook CURDATE id r db = (inr tt, db).
Proof.
  intros Hl. unfold ReturnBook, transaction. cbv zeta.
  rewrite run_bind, run_query, Hl. simpl.
  rewrite run_bind. unfold UPDATE_loans. rewrite Hl. by rewrite run_ret.
Qed.

(** The specification's example on a loan stored as [active]: due
    2024-01-10, returned 2024-01-15, fine 2.50. *)
Example fine_2024_01_15 :
  let db := mkDB {[ "user_001" := mkUser true patron ]} {[ 1 := mkBook 1 0 checked_out ]}
                 {[ 7 := mkLoan "user_001" 1 (d 2023 12 27) (d 2024 1 10) None 0 active 0 ]} 8 in
  fine <$> loans (ReturnBook (d 2024 1 15) 7 None db).2 !! 7 = Some 250.
Proof. vm_compute. reflexivity. Qed.

(** The README's business-logic test, run: a loan, an UPDATE that moves its
    due date five days into the past (the trigger makes the row
    ['overdue']), and the return that is to show the fine calculation.  The
    fine recorded is 0.00 and the copy does not come back on the shelf. *)
Example readme_business_logic_test :
  let today := d 2024 3 1 in
  let db := mkDB {[ "user_001" := mkUser true patron ]} {[ 1 := mkBook 3 1 available ]} ∅ 1 in
  let db1 := (ProcessLoan today "user_001" 1 14 db).2 in
  let db2 := (UPDATE_loans today [ set_due_date (today - 5) ] 1 db1).2 in
  let db3 := (ReturnBook today 1 (Some today) db2).2 in
  status <$> loans db1 !! 1 = Some active
  ∧ status <$> loans db2 !! 1 = Some overdue
  ∧ loans db3 !! 1
    = Some (mkLoan "user_001" 1 today (today - 5) (Some today) 0 returned 0)
  ∧ available_copies <$> books db3 !! 1 = Some 0.
Proof. vm_compute. repeat split; reflexivity. Qed.

(** C3, evaluated on a loan stored as [overdue]: loan 1 was due 2024-01-10
    and is returned on 2024-01-15.  [ReturnBook] reads the due date only of a
    loan whose status is ['active'], so the fine it records is 0.00 where the
    policy gives 2.50; [returnBook] of the storage layer never writes the
    fine, for a loan of any status. *)
Theorem overdue_loan_returned_without_fine :
  status <$> loans sample_db !! 1 = Some overdue
  ∧ due_date <$> loans sample_db !! 1 = Some (d 2024 1 10)
  ∧ fine_policy (d 2024 1 15) (d 2024 1 10) = 250
  ∧ (ReturnBook (d 2024 1 15) 1 (Some (d 2024 1 15)) sample_db).1 = inr tt
  ∧ loans (ReturnBook (d 2024 1 15) 1 (Some (d 2024 1 15)) sample_db).2 !! 1
    = Some (mkLoan "user_001" 2 (d 2023 12 27) (d 2024 1 10)
                   (Some (d 2024 1 15)) 0 returned 0)
  ∧ loans (Storage.returnBook (d 2024 1 15) 1 sample_db).2 !! 1
    = Some (mkLoan "user_001" 2 (d 2023 12 27) (d 2024 1 10)
                   (Some (d 2024 1 15)) 0 returned 0).
Proof. vm_compute. repeat split; reflexivity. Qed.

(** C5, evaluated on loans that are not [active]:
    - loan 1 is [overdue]: [ReturnBook] returns normally and marks it
      returned, but book 2 keeps [available_copies = 0];
    - loan 3 is [returned] already: [ReturnBook] returns normally and
      overwrites its return date; the HTTP handler answers 200, overwrites
      the return date and counts one more copy of book 1 as available;
    - loan 99 does not exist: [ReturnBook] returns normally. *)
Theorem ReturnBook_on_loans_not_active :
  ((ReturnBook (d 2024 1 15) 1 None sample_db).1 = inr tt
   ∧ status <$> loans (ReturnBook (d 2024 1 15) 1 None sample_db).2 !! 1 = Some returned
   ∧ books (ReturnBook (d 2024 1 15) 1 None sample_db).2 !! 2
     = Some (mkBook 2 0 checked_out))
  ∧ ((ReturnBook (d 2024 1 15) 3 None sample_db).1 = inr tt
     ∧ return_date <$> loans sample_db !! 3 = Some (Some (d 2023 11 14))
     ∧ return_date <$> loans (ReturnBook (d 2024 1 15) 3 None sample_db).2 !! 3
       = Some (Some (d 2024 1 15)))
  ∧ (Routes.code (Routes.post_api_loans_return (d 2024 1 15) "user_002" 3 sample_db).1 = 200
     ∧ return_date <$>
         loans (Routes.post_api_loans_return (d 2024 1 15) "user_002" 3 sample_db).2 !! 3
       = Some (Some (d 2024 1 15))
     ∧ books sample_db !! 1 = Some (mkBook 3 1 available)
     ∧ books (Routes.post_api_loans_return (d 2024 1 15) "user_002" 3 sample_db).2 !! 1
       = Some (mkBook 3 2 available))
  ∧ (loans sample_db !! 99 = None
     ∧ ReturnBook (d 2024 1 15) 99 None sample_db = (inr tt, sample_db)).
Proof. vm_compute. repeat split; reflexivity. Qed.

(** ** The derived status of a book *)

(** After a return the status is the derived one. *)
Lemma back_on_shelf_status_derived b :
  0 <= available_copies b → status_derived (back_on_shelf b).
Proof.
  intros H0. unfold status_derived, back_on_shelf. simpl.
  split; [split; [done|lia]|done].
Qed.

(** After [ProcessLoan] on a book that was ['available'] with a copy on the
    shelf, the status is the derived one only if two copies are left. *)
Lemma lent_status_derived b :
  book_status b = available → available_copies b >= 1 →
  status_derived (lent b) ↔ available_copies b >= 3.
Proof.
  intros Hs Hpos. unfold status_derived, lent. simpl.
  destruct (decide (available_copies b - 1 - 1 = 0)) as [H2|H2].
  - split; [|lia]. intros [[H _] _]. specialize (H eq_refl). lia.
  - rewrite Hs. split.
    + intros [[_ H] _]. destruct (decide (available_copies b - 1 = 0)) as [H1|H1]; [|lia].
      by specialize (H H1).
    + intros Hge. split; [split; [done|lia]|done].
Qed.

(** C7, evaluated on [ProcessLoan].  The UPDATE assigns [available_copies]
    first and [status] second, and the CASE of the second assignment reads
    [available_copies] after the first one has decremented it:
    - book 1 has one copy on the shelf and status ['available']; after the
      loan it has none and its status is still ['available'];
    - a book with two copies on the shelf and status ['available'] has one
      left after the loan and status ['checked_out'];
    - the ELSE branch keeps the stored status instead of writing
      ['available']: a book stored as ['checked_out'] with three copies on
      the shelf is still ['checked_out'] with two. *)
Theorem ProcessLoan_status_not_derived :
  let shelf b := mkDB {[ "user_002" := mkUser true patron ]} {[ 6 := b ]} ∅ 1 in
  (books sample_db !! 1 = Some (mkBook 3 1 available)
   ∧ ProcessLoan (d 2024 1 13) "user_002" 1 14 sample_db
       = (inr tt, (ProcessLoan (d 2024 1 13) "user_002" 1 14 sample_db).2)
   ∧ books (ProcessLoan (d 2024 1 13) "user_002" 1 14 sample_db).2 !! 1
     = Some (mkBook 3 0 available)
   ∧ ¬ status_derived (mkBook 3 0 available))
  ∧ (books (ProcessLoan (d 2024 1 13) "user_002" 6 14 (shelf (mkBook 3 2 available))).2 !! 6
     = Some (mkBook 3 1 checked_out)
     ∧ ¬ status_derived (mkBook 3 1 checked_out))
  ∧ (books (ProcessLoan (d 2024 1 13) "user_002" 6 14 (shelf (mkBook 3 3 checked_out))).2 !! 6
     = Some (mkBook 3 2 checked_out)
     ∧ ¬ status_derived (mkBook 3 2 checked_out)).
Proof.
  cbv zeta. repeat split; try (vm_compute; reflexivity);
    unfold status_derived; simpl; intros [[H1 H2] H3];
    first [ by specialize (H2 eq_refl) | by specialize (H1 eq_refl) ].
Qed.

(** ** A returned loan *)













(** ** A loan followed by its return *)

Lemma ProcessLoan_Ok CURDATE u k n db db1 :
  ProcessLoan CURDATE u k n db = (inr tt, db1) →
  ∃ b, books db !! k = Some b
       ∧ available_copies b > 0
       ∧ loans db !! loans_auto_increment db = None
       ∧ copies_in_range (lent b)
       ∧ db1 = mkDB (users db) (<[k := lent b]> (books db))
                    (<[loans_auto_increment db := new_loan CURDATE u k n]> (loans db))
                    (loans_auto_increment db + 1).
Proof.
  rewrite ProcessLoan_run.
  destruct (decide (default 0 (available_copies <$> books db !! k) <= 0)) as [|Hpos]; [done|].
  repeat (case_match; [done|]).
  unfold transaction.
  destruct (ProcessLoan_writes _ _ _ _ db) as [[e|[]] db2] eqn:Hw; [done|].
  intros [= <-].
  apply ProcessLoan_writes_Ok in Hw as (b & Hb & _ & Hfresh & Hc & ->).
  exists b. rewrite Hb in Hpos. simpl in Hpos. repeat split; try done; [lia|apply Hc..].
Qed.

Lemma returnBook_run today id db l b :
  loans db !! id = Some l → renew_count l <= 2 →
  books db !! book_id l = Some b →
  0 <= available_copies b → available_copies b < total_copies b →
  Storage.returnBook today id db =
    (inr (set_return_date (Some today) (set_status returned l)),
     mkDB (users db)
          (<[book_id l := back_on_shelf b]> (books db))
          (<[id := set_return_date (Some today) (set_status returned l)]> (loans db))
          (loans_auto_increment db)).
Proof.
  intros Hl Hrc Hb H0 Hlt. unfold Storage.returnBook.
  rewrite run_bind.
  rewrite (UPDATE_loans_run _ _ _ _ l) by done.
  rewrite !SET_cons, SET_nil. cbv zeta.
  rewrite UpdateOverdueLoans_not_active by done. simpl.
  rewrite decide_True by done.
  rewrite run_bind. simpl.
  rewrite (UPDATE_books_run _ _ _ b) by done.
  rewrite !SET_cons, SET_nil. simpl.
  rewrite decide_True by (unfold copies_in_range; simpl; lia).
  by rewrite run_ret.
Qed.

(** The copies of every book after lending one of book [k] and taking it
    back. *)
Lemma copies_restored (bs : gmap Z Book) k b b1 b2 :
  bs !! k = Some b → available_copies b2 = available_copies b →
  ∀ j, available_copies <$> (<[k := b2]> (<[k := b1]> bs)) !! j
       = available_copies <$> bs !! j.
Proof.
  intros Hb Heq j. destruct (decide (k = j)) as [<-|Hne].
  - rewrite lookup_insert_eq, Hb. simpl. by rewrite Heq.
  - by rewrite !lookup_insert_ne.
Qed.

(** C9: in a state that satisfies the inventory invariant, whenever a loan
    is created, returning that loan straight away succeeds and leaves every
    book with the [available_copies] it had before the loan.  This holds for
    the stored procedures ([ProcessLoan], then [ReturnBook] on the new
    loan), for the storage layer ([createLoan], then [returnBook]) and for
    the HTTP handlers (201 on [POST /api/loans], then the same caller on
    [POST /api/loans/:id/return]). *)
Theorem createLoan_then_returnLoan_restores_copies db :
  inventory_invariant db →
  (∀ CURDATE u k n db1 CURDATE' r,
     ProcessLoan CURDATE u k n db = (inr tt, db1) →
     loans db !! loans_auto_increment db = None
     ∧ loans db1 !! loans_auto_increment db = Some (new_loan CURDATE u k n)
     ∧ ∃ db2, ReturnBook CURDATE' (loans_auto_increment db) r db1 = (inr tt, db2)
              ∧ ∀ j, available_copies <$> books db2 !! j
                     = available_copies <$> books db !! j)
  ∧ (∀ loan id row db1 today,
       Storage.createLoan loan db = (inr (id, row), db1) →
       ∃ row' db2, Storage.returnBook today id db1 = (inr row', db2)
                   ∧ ∀ j, available_copies <$> books db2 !! j
                          = available_copies <$> books db !! j)
  ∧ (∀ sub body id row db1 today,
       Routes.post_api_loans sub body db
         = (Routes.json 201 (Routes.loan_json id row), db1) →
       ∃ row' db2, Routes.post_api_loans_return today sub id db1
                     = (Routes.json 200 (Routes.loan_json id row'), db2)
                   ∧ ∀ j, available_copies <$> books db2 !! j
                          = available_copies <$> books db !! j).
Proof.
  intros Hinv.
  assert (∀ loan id row db1 today,
       Storage.createLoan loan db = (inr (id, row), db1) →
       Storage.returnBook today id db1
         = (inr (set_return_date (Some today) (set_status returned row)),
            (Storage.returnBook today id db1).2)
       ∧ loans db1 !! id = Some row
       ∧ users db1 = users db
       ∧ row = Storage.values loan
       ∧ ∀ j, available_copies <$> books (Storage.returnBook today id db1).2 !! j
              = available_copies <$> books db !! j) as Hts.
  { intros loan id row db1 today Hc.
    apply createLoan_Ok in Hc as (b & Hb & -> & -> & Hfresh & Hrc & [H0 Hle] & ->).
    destruct (Hinv _ _ Hb) as [Hb0 Hbt]. simpl in H0, Hle.
    rewrite (returnBook_run today _ _ (Storage.values loan) (lent_ts b));
      simpl; try done; try lia.
    - repeat split; try done; [by rewrite lookup_insert_eq|].
      apply (copies_restored _ _ b); [done|]. simpl. lia.
    - by rewrite lookup_insert_eq.
    - by rewrite lookup_insert_eq. }
  split; [|split].
  - intros CURDATE u k n db1 CURDATE' r Hp.
    apply ProcessLoan_Ok in Hp as (b & Hb & Hpos & Hfresh & [H0 Hle] & ->).
    destruct (Hinv _ _ Hb) as [Hb0 Hbt]. simpl in H0, Hle.
    split; [exact Hfresh|]. split; [simpl; by rewrite lookup_insert_eq|].
    eexists. split.
    + apply (ReturnBook_active _ _ _ _ (new_loan CURDATE u k n) (lent b));
        simpl; try done; try lia.
      * by rewrite lookup_insert_eq.
      * by rewrite lookup_insert_eq.
    + simpl. apply (copies_restored _ _ b); [done|]. simpl. lia.
  - intros loan id row db1 today Hc.
    destruct (Hts loan id row db1 today Hc) as (Hr & _ & _ & _ & Hcopies).
    eexists _, _. split; [exact Hr|exact Hcopies].
  - intros sub body id row db1 today Hp.
    unfold Routes.post_api_loans, Routes.try_catch in Hp.
    unfold Storage.getUser, Storage.getBook in Hp.
    rewrite run_bind, run_query in Hp.
    destruct (users db !! sub) as [u|] eqn:Hu; [|by rewrite run_ret in Hp].
    cbv zeta in Hp. rewrite run_bind, run_query in Hp. simpl in Hp.
    destruct (books db !! Storage.bookId body) as [b|]; [|by rewrite run_ret in Hp].
    destruct (decide (available_copies b <= 0)); [by rewrite run_ret in Hp|].
    rewrite run_bind in Hp.
    destruct (Storage.createLoan _ db) as [[e|[id' row']] db1'] eqn:Hc; [done|].
    rewrite run_ret in Hp. simpl in Hp. injection Hp as -> -> ->.
    destruct (Hts _ id row db1 today Hc) as (Hr & Hl & Husers & Hrow & Hcopies).
    unfold Routes.post_api_loans_return, Routes.try_catch.
    unfold Storage.getUser, Storage.getLoan.
    rewrite run_bind, run_query, Husers, Hu, run_bind, run_query, Hl.
    rewrite decide_False.
    + rewrite run_bind, Hr, run_ret. eexists _, _. split; [reflexivity|exact Hcopies].
    + intros [Hrole Hown]. apply Hown. rewrite Hrow. simpl.
      destruct (decide (role u = patron)) as [|Hnp]; [done|].
      destruct (role u); done.
Qed.

Lemma createLoan_then_returnLoan_restores_copies_witness :
  inventory_invariant sample_db
  ∧ (∀ CURDATE u k n db1 CURDATE' r,
       ProcessLoan CURDATE u k n sample_db = (inr tt, db1) →
       loans sample_db !! loans_auto_increment sample_db = None
       ∧ loans db1 !! loans_auto_increment sample_db = Some (new_loan CURDATE u k n)
       ∧ ∃ db2, ReturnBook CURDATE' (loans_auto_increment sample_db) r db1 = (inr tt, db2)
                ∧ ∀ j, available_copies <$> books db2 !! j
                       = available_copies <$> books sample_db !! j)
  ∧ (∀ loan id row db1 today,
       Storage.createLoan loan sample_db = (inr (id, row), db1) →
       ∃ row' db2, Storage.returnBook today id db1 = (inr row', db2)
                   ∧ ∀ j, available_copies <$> books db2 !! j
                          = available_copies <$> books sample_db !! j)
  ∧ (∀ sub body id row db1 today,
       Routes.post_api_loans sub body sample_db
         = (Routes.json 201 (Routes.loan_json id row), db1) →
       ∃ row' db2, Routes.post_api_loans_return today sub id db1
                     = (Routes.json 200 (Routes.loan_json id row'), db2)
                   ∧ ∀ j, available_copies <$> books db2 !! j
                          = available_copies <$> books sample_db !! j).
Proof.
  assert (inventory_invariant sample_db) as H.
  { unfold inventory_invariant, sample_db. simpl.
    repeat (apply map_Forall_insert_2; [unfold copies_in_range; simpl; lia|]).
    apply map_Forall_empty. }
  split; [exact H|].
  apply (createLoan_then_returnLoan_restores_copies sample_db H).
Defined.

(** A loan of book 5 and its return, run: two copies before, one while the
    book is out, two again after the return. *)
Example loan_and_return_of_book_5 :
  let db1 := (ProcessLoan (d 2024 1 13) "user_002" 5 14 sample_db).2 in
  let db2 := (ReturnBook (d 2024 1 13) 4 None db1).2 in
  available_copies <$> books sample_db !! 5 = Some 2
  ∧ available_copies <$> books db1 !! 5 = Some 1
  ∧ status <$> loans db1 !! 4 = Some active
  ∧ available_copies <$> books db2 !! 5 = Some 2
  ∧ status <$> loans db2 !! 4 = Some returned.
Proof. vm_compute. repeat split; reflexivity. Qed.

(** * Further properties *)

(** ** Deleting a book that has no open loan *)

Lemma COUNT_loans_none (P : Loan → Prop) `{!∀ l, Decision (P l)} ls :
  (∀ k l, ls !! k = Some l → ¬ P l) → COUNT_loans P ls = 0.
Proof.
  intros Hall. unfold COUNT_loans.
  assert (filter (λ kl : Z * Loan, P kl.2) ls = ∅) as ->; [|by rewrite map_size_empty].
  apply map_empty. intros k. apply map_lookup_filter_None.
  destruct (ls !! k) as [l|] eqn:Hk; [right|by left].
  intros l' [= <-]. simpl. by apply (Hall k).
Qed.

Lemma prevent_book_deletion_passes db k :
  (∀ j l, loans db !! j = Some l → book_id l = k → ¬ open_loan l) →
  prevent_book_deletion k db = (inr tt, db).
Proof.
  intros H. unfold prevent_book_deletion.
  rewrite run_bind, run_query, run_SIGNAL_IF.
  rewrite COUNT_loans_none; [done|].
  intros j l Hl [Hk Hopen]. by apply (H j l).
Qed.

(** X1: [deleteBook] on a book that exists returns normally exactly when no
    loan of the book is [active] or [overdue].  It then removes the book and,
    through ON DELETE CASCADE, every loan of the book (its returned loans);
    the other books, the loans of other books and the users stay as they
    were. *)
Theorem deleteBook_removes_book_and_its_loans db k b :
  books db !! k = Some b →
  ((Storage.deleteBook k db).1 = inr tt
   ↔ ∀ j l, loans db !! j = Some l → book_id l = k → ¬ open_loan l)
  ∧ ((Storage.deleteBook k db).1 = inr tt →
     books (Storage.deleteBook k db).2 !! k = None
     ∧ (∀ j, j ≠ k → books (Storage.deleteBook k db).2 !! j = books db !! j)
     ∧ (∀ j l, loans (Storage.deleteBook k db).2 !! j = Some l
               ↔ loans db !! j = Some l ∧ book_id l ≠ k)
     ∧ users (Storage.deleteBook k db).2 = users db).
Proof.
  intros Hb.
  assert ((Storage.deleteBook k db).1 = inr tt
          ↔ ∀ j l, loans db !! j = Some l → book_id l = k → ¬ open_loan l) as Hiff.
  { split.
    - intros Hok j l Hl Hk Hopen.
      unfold Storage.deleteBook, DELETE_books in Hok. rewrite Hb in Hok.
      by rewrite (prevent_book_deletion_signals db k j l) in Hok.
    - intros Hnone. unfold Storage.deleteBook, DELETE_books. rewrite Hb.
      by rewrite prevent_book_deletion_passes. }
  split; [exact Hiff|]. intros Hok. pose proof (proj1 Hiff Hok) as Hnone.
  unfold Storage.deleteBook, DELETE_books. rewrite Hb.
  rewrite prevent_book_deletion_passes by done. simpl.
  split; [apply lookup_delete_eq|].
  split; [intros j Hj; by apply lookup_delete_ne|].
  split; [|done].
  intros j l. rewrite map_lookup_filter_Some. simpl. done.
Qed.

Lemma deleteBook_removes_book_and_its_loans_witness :
  books sample_db !! 5 = Some (mkBook 2 2 available)
  ∧ ((Storage.deleteBook 5 sample_db).1 = inr tt
     ↔ ∀ j l, loans sample_db !! j = Some l → book_id l = 5 → ¬ open_loan l)
  ∧ ((Storage.deleteBook 5 sample_db).1 = inr tt →
     books (Storage.deleteBook 5 sample_db).2 !! 5 = None
     ∧ (∀ j, j ≠ 5 → books (Storage.deleteBook 5 sample_db).2 !! j = books sample_db !! j)
     ∧ (∀ j l, loans (Storage.deleteBook 5 sample_db).2 !! j = Some l
               ↔ loans sample_db !! j = Some l ∧ book_id l ≠ 5)
     ∧ users (Storage.deleteBook 5 sample_db).2 = users sample_db).
Proof.
  split; [reflexivity|].
  apply (deleteBook_removes_book_and_its_loans sample_db 5 (mkBook 2 2 available)).
  reflexivity.
Defined.

(** A book whose only loan was returned is deleted together with that
    loan. *)
Example delete_book_with_returned_loan :
  let db := mkDB {[ "user_001" := mkUser true patron ]}
                 (<[1 := mkBook 1 1 available]> {[ 2 := mkBook 1 0 checked_out ]})
                 (<[7 := mkLoan "user_001" 1 (d 2024 1 2) (d 2024 1 16) (Some (d 2024 1 9)) 0 returned 0]>
                  {[ 8 := mkLoan "user_001" 2 (d 2024 1 9) (d 2024 1 23) None 0 active 0 ]}) 9 in
  Storage.deleteBook 1 db
  = (inr tt,
     mkDB {[ "user_001" := mkUser true patron ]} {[ 2 := mkBook 1 0 checked_out ]}
          {[ 8 := mkLoan "user_001" 2 (d 2024 1 9) (d 2024 1 23) None 0 active 0 ]} 9).
Proof. vm_compute. reflexivity. Qed.

(** ** The constraints of the schema as an invariant *)

Lemma preserves_admin_try_catch I handler failed db :
  preserves I handler → I db → I (Admin.try_catch handler failed db).2.
Proof.
  intros Hh H. unfold Admin.try_catch. specialize (Hh db H).
  destruct (handler db) as [[e|a] db1]; simpl in *; assumption.
Qed.

Lemma loan_row_ok_mono db db' l :
  (∀ u, is_Some (users db !! u) → is_Some (users db' !! u)) →
  (∀ k, is_Some (books db !! k) → is_Some (books db' !! k)) →
  Admin.loan_row_ok db l → Admin.loan_row_ok db' l.
Proof. intros Hu Hb (? & ? & ?). repeat split; auto. Qed.

Lemma schema_INSERT_loans row :
  preserves Admin.schema_constraints (INSERT_loans row).
Proof.
  intros db (Hbooks & Hloans & Hids).
  destruct (INSERT_loans row db) as [[e|id] db1] eqn:Hins.
  - apply INSERT_loans_Err in Hins as ->. done.
  - apply INSERT_loans_Ok in Hins as (-> & Hfresh & Hrc & Hu & Hb & ->).
    split; [done|]. split; simpl.
    + apply map_Forall_insert_2; [done|].
      intros k l Hl. eapply loan_row_ok_mono; [| |exact (Hloans k l Hl)]; done.
    + apply map_Forall_insert_2; [lia|].
      intros k l Hl. specialize (Hids k l Hl). simpl in Hids. lia.
Qed.

Lemma loans_foreign_keys_None db OLD NEW :
  Admin.loan_row_ok db OLD →
  loans_foreign_keys db (Some OLD) NEW = None →
  is_Some (users db !! user_id NEW) ∧ is_Some (books db !! book_id NEW).
Proof.
  intros (_ & Hu & Hb). unfold loans_foreign_keys. simpl.
  destruct (decide (Some (user_id OLD) ≠ Some (user_id NEW)
                    ∧ users db !! user_id NEW = None)) as [|Hnu]; [done|].
  destruct (decide (Some (book_id OLD) ≠ Some (book_id NEW)
                    ∧ books db !! book_id NEW = None)) as [|Hnb]; [done|].
  intros _. split.
  - destruct (decide (user_id OLD = user_id NEW)) as [<-|Hne]; [done|].
    destruct (users db !! user_id NEW); [by eexists|].
    exfalso. apply Hnu. split; [congruence|done].
  - destruct (decide (book_id OLD = book_id NEW)) as [<-|Hne]; [done|].
    destruct (books db !! book_id NEW); [by eexists|].
    exfalso. apply Hnb. split; [congruence|done].
Qed.

Lemma schema_UPDATE_loans today a k :
  preserves Admin.schema_constraints (UPDATE_loans today a k).
Proof.
  intros db (Hbooks & Hloans & Hids). unfold UPDATE_loans.
  destruct (loans db !! k) as [OLD|] eqn:Hk; [|done].
  unfold loans_checks.
  destruct (decide (¬ renew_count (UpdateOverdueLoans today (SET a OLD)) <= 2))
    as [|Hrc]; [done|].
  destruct (loans_foreign_keys db (Some OLD) _) eqn:Hfk; [done|].
  apply loans_foreign_keys_None in Hfk as [Hu Hb]; [|exact (Hloans k OLD Hk)].
  split; [done|]. split; simpl.
  - apply map_Forall_insert_2.
    + repeat split; [lia|done|done].
    + intros j l Hl. eapply loan_row_ok_mono; [| |exact (Hloans j l Hl)]; done.
  - apply map_Forall_insert_2; [exact (Hids k OLD Hk)|done].
Qed.

Lemma schema_UPDATE_books a k :
  preserves Admin.schema_constraints (UPDATE_books a k).
Proof.
  intros db (Hbooks & Hloans & Hids). unfold UPDATE_books.
  destruct (books db !! k) as [OLD|] eqn:Hk; [|done].
  destruct (books_checks (SET a OLD)) eqn:Hc; [done|].
  apply books_checks_None in Hc.
  split; [|split]; simpl.
  - by apply map_Forall_insert_2.
  - intros j l Hl. eapply loan_row_ok_mono; [| |exact (Hloans j l Hl)]; [done|].
    simpl. intros i Hi. destruct (decide (k = i)) as [->|Hne].
    + rewrite lookup_insert_eq. by eexists.
    + by rewrite lookup_insert_ne.
  - done.
Qed.

Lemma schema_DELETE_books k :
  preserves Admin.schema_constraints (DELETE_books k).
Proof.
  intros db (Hbooks & Hloans & Hids). unfold DELETE_books.
  destruct (books db !! k) as [b|] eqn:Hk; [|done].
  destruct (prevent_book_deletion k db) as [[e|[]] db1]; [done|].
  split; [|split]; simpl.
  - by apply map_Forall_delete.
  - intros j l Hl. apply map_lookup_filter_Some in Hl as [Hl Hne]. simpl in Hne.
    destruct (Hloans j l Hl) as (Hrc & Hu & Hb).
    repeat split; [done|done|]. simpl. by rewrite lookup_delete_ne.
  - intros j l Hl. apply map_lookup_filter_Some in Hl as [Hl _].
    exact (Hids j l Hl).
Qed.

Lemma schema_UPDATE_users a k :
  preserves Admin.schema_constraints (Admin.UPDATE_users a k).
Proof.
  intros db (Hbooks & Hloans & Hids). unfold Admin.UPDATE_users.
  destruct (users db !! k) as [OLD|] eqn:Hk; [|done].
  split; [done|]. split; [|done]. simpl.
  intros j l Hl. eapply loan_row_ok_mono; [| |exact (Hloans j l Hl)]; [|done].
  simpl. intros i Hi. destruct (decide (k = i)) as [->|Hne].
  - rewrite lookup_insert_eq. by eexists.
  - by rewrite lookup_insert_ne.
Qed.

Ltac schema_solve :=
  repeat first
    [ apply schema_INSERT_loans | apply schema_UPDATE_loans
    | apply schema_UPDATE_books | apply schema_DELETE_books
    | apply schema_UPDATE_users | preserves_step | case_decide ].

Lemma schema_loan_functions :
  (∀ d u k n, preserves Admin.schema_constraints (ProcessLoan d u k n))
  ∧ (∀ d k r, preserves Admin.schema_constraints (ReturnBook d k r))
  ∧ (∀ loan, preserves Admin.schema_constraints (Storage.createLoan loan))
  ∧ (∀ d k, preserves Admin.schema_constraints (Storage.returnBook d k))
  ∧ (∀ d k, preserves Admin.schema_constraints (Storage.renewLoan d k))
  ∧ (∀ d k p, preserves Admin.schema_constraints (Storage.updateLoan d k p))
  ∧ (∀ k, preserves Admin.schema_constraints (Storage.deleteBook k))
  ∧ (∀ k b, preserves Admin.schema_constraints (Admin.updateBook k b))
  ∧ (∀ k, preserves Admin.schema_constraints (Admin.deactivateMember k)).
Proof.
  repeat apply conj; intros;
    unfold ProcessLoan, ReturnBook, Storage.createLoan, Storage.returnBook,
      Storage.renewLoan, Storage.updateLoan, Storage.deleteBook,
      Admin.updateBook, Admin.deactivateMember;
    schema_solve.
Qed.

Lemma schema_step db op :
  Admin.schema_constraints db → Admin.schema_constraints (step db op).
Proof.
  destruct schema_loan_functions as (HP & HR & Hc & Hr & Hn & _).
  intros H. destruct op; cbn [step];
    unfold Routes.post_api_loans, Routes.post_api_loans_simple,
      Routes.post_api_loans_return, Routes.post_api_loans_renew.
  - by apply HP.
  - by apply HR.
  - by apply Hc.
  - by apply Hr.
  - by apply Hn.
  - apply preserves_try_catch; [|done]. unfold Storage.getUser, Storage.getBook.
    repeat first [ apply Hc | preserves_step | case_decide ].
  - apply preserves_try_catch; [|done].
    repeat first [ apply Hc | preserves_step ].
  - apply preserves_try_catch; [|done]. unfold Storage.getUser, Storage.getLoan.
    repeat first [ apply Hr | preserves_step | case_decide ].
  - apply preserves_try_catch; [|done]. unfold Storage.getUser, Storage.getLoan.
    repeat first [ apply Hn | preserves_step | case_decide ].
Qed.

Lemma schema_edit db e :
  Admin.schema_constraints db → Admin.schema_constraints (Admin.edit db e).
Proof.
  destruct schema_loan_functions as (_ & _ & _ & _ & _ & Hu & Hd & Hb & Hm).
  intros H. destruct e; cbn [Admin.edit];
    unfold Routes.delete_api_books, Admin.put_api_books,
      Admin.post_api_members_deactivate.
  - by apply schema_step.
  - by apply Hd.
  - by apply Hb.
  - by apply Hu.
  - by apply Hm.
  - apply preserves_try_catch; [|done]. unfold Storage.getUser.
    repeat first [ apply Hd | preserves_step | case_decide ].
  - apply preserves_admin_try_catch; [|done]. unfold Storage.getUser.
    repeat first [ apply Hb | preserves_step | case_decide ].
  - apply preserves_admin_try_catch; [|done]. unfold Storage.getUser.
    repeat first [ apply Hm | preserves_step | case_decide ].
Qed.

(** X2: the CHECK constraints of [books] and [loans], the two FOREIGN KEYs of
    [loans] and the freshness of the AUTO_INCREMENT counter are kept by
    every sequence of write operations: the loan operations on all their
    entry points, [deleteBook], [updateBook], [updateLoan] and
    [deactivateMember], called directly or through their handlers.  In
    particular no loan ever refers to a user or a book that is not there. *)
Theorem schema_constraints_preserved es db :
  Admin.schema_constraints db →
  Admin.schema_constraints (Admin.edits es db)
  ∧ ∀ j l, loans (Admin.edits es db) !! j = Some l →
           renew_count l <= 2
           ∧ is_Some (users (Admin.edits es db) !! user_id l)
           ∧ is_Some (books (Admin.edits es db) !! book_id l)
           ∧ j < loans_auto_increment (Admin.edits es db).
Proof.
  intros H. assert (Admin.schema_constraints (Admin.edits es db)) as Hrun.
  { revert db H. induction es as [|e es IH]; intros db H; [exact H|].
    simpl. apply IH. by apply schema_edit. }
  split; [exact Hrun|]. intros j l Hl.
  destruct Hrun as (_ & Hloans & Hids).
  destruct (Hloans j l Hl) as (? & ? & ?). specialize (Hids j l Hl).
  simpl in Hids. done.
Qed.

Lemma schema_constraints_sample : Admin.schema_constraints sample_db.
Proof.
  unfold Admin.schema_constraints, sample_db. simpl. repeat apply conj.
  - repeat (apply map_Forall_insert_2;
            [unfold Admin.book_row_ok, copies_in_range; simpl; lia|]).
    apply map_Forall_empty.
  - repeat (apply map_Forall_insert_2;
            [unfold Admin.loan_row_ok; simpl;
             repeat apply conj; [lia|eexists; reflexivity|eexists; reflexivity]|]).
    apply map_Forall_empty.
  - repeat (apply map_Forall_insert_2; [lia|]). apply map_Forall_empty.
Qed.

Lemma schema_constraints_preserved_witness :
  Admin.schema_constraints sample_db
  ∧ Admin.schema_constraints
      (Admin.edits sample_edits sample_db)
  ∧ ∀ j l,
      loans (Admin.edits sample_edits sample_db) !! j
      = Some l →
      renew_count l <= 2
      ∧ is_Some (users (Admin.edits sample_edits sample_db) !! user_id l)
      ∧ is_Some (books (Admin.edits sample_edits sample_db) !! book_id l)
      ∧ j < loans_auto_increment (Admin.edits sample_edits sample_db).
Proof.
  split; [exact schema_constraints_sample|].
  apply (schema_constraints_preserved _ sample_db schema_constraints_sample).
Defined.

(** ** The trigger UpdateOverdueLoans *)




(** ** An overdue loan blocks its borrower *)

(** A patron with a loan stored as ['overdue'] is refused by [ProcessLoan],
    whatever the book; nothing is written. *)
Lemma ProcessLoan_refuses_overdue_patron CURDATE u k n db :
  overdue_count u db > 0 →
  ∃ msg, ProcessLoan CURDATE u k n db = (inl (Signal45000 msg), db).
Proof.
  intros Hov. rewrite ProcessLoan_run.
  case_decide; [by eexists|]. destruct (negb _); [by eexists|].
  rewrite decide_True by done. by eexists.
Qed.

Lemma overdue_loan_of_count u id db :
  overdue_loan_of u id db → overdue_count u db > 0.
Proof.
  intros (l & Hl & Hs & Hu). eapply COUNT_loans_pos; [exact Hl|]. done.
Qed.

Lemma overdue_INSERT_loans u id row : preserves (overdue_loan_of u id) (INSERT_loans row).
Proof.
  intros db (l & Hl & Hs).
  destruct (INSERT_loans row db) as [[e|k] db1] eqn:Hins.
  - apply INSERT_loans_Err in Hins as ->. by exists l.
  - apply INSERT_loans_Ok in Hins as (-> & Hfresh & _ & _ & _ & ->).
    exists l. split; [|done]. simpl. rewrite lookup_insert_ne; [done|]. congruence.
Qed.

Lemma overdue_UPDATE_books u id a k : preserves (overdue_loan_of u id) (UPDATE_books a k).
Proof.
  intros db H. unfold UPDATE_books.
  destruct (books db !! k); [|done]. destruct (books_checks _); done.
Qed.

(** An UPDATE that assigns neither [status] nor [user_id] leaves the loan
    overdue: the trigger has no branch that leaves ['overdue']. *)
Lemma overdue_UPDATE_loans u id today a k :
  (∀ l, status (SET a l) = status l ∧ user_id (SET a l) = user_id l) →
  preserves (overdue_loan_of u id) (UPDATE_loans today a k).
Proof.
  intros Ha db (l & Hl & Hs & Hu). unfold UPDATE_loans.
  destruct (loans db !! k) as [OLD|] eqn:Hk; [|by exists l].
  destruct (loans_checks _); [by exists l|].
  destruct (loans_foreign_keys _ _ _); [by exists l|].
  unfold overdue_loan_of. simpl.
  destruct (decide (k = id)) as [->|Hne].
  - rewrite lookup_insert_eq. eexists. split; [done|].
    assert (OLD = l) as -> by congruence.
    destruct (Ha l) as [Hst Hus].
    rewrite UpdateOverdueLoans_not_active by (rewrite Hst, Hs; done).
    rewrite Hst, Hus. done.
  - rewrite lookup_insert_ne by done. by exists l.
Qed.

Lemma overdue_step u id db op :
  is_return op = false → overdue_loan_of u id db → overdue_loan_of u id (step db op).
Proof.
  intros Hop H.
  assert (∀ loan, preserves (overdue_loan_of u id) (Storage.createLoan loan)) as Hc.
  { intros loan. unfold Storage.createLoan.
    repeat first [ apply overdue_INSERT_loans | apply overdue_UPDATE_books | preserves_step ]. }
  assert (∀ today k, preserves (overdue_loan_of u id) (Storage.renewLoan today k)) as Hn.
  { intros today k. apply overdue_UPDATE_loans. done. }
  destruct op; try discriminate Hop; cbn [step];
    unfold Routes.post_api_loans, Routes.post_api_loans_simple, Routes.post_api_loans_renew.
  - revert db H. unfold ProcessLoan.
    repeat first [ apply overdue_INSERT_loans | apply overdue_UPDATE_books | preserves_step ].
  - by apply Hc.
  - by apply Hn.
  - apply preserves_try_catch; [|done]. unfold Storage.getUser, Storage.getBook.
    repeat first [ apply Hc | preserves_step | case_decide ].
  - apply preserves_try_catch; [|done].
    repeat first [ apply Hc | preserves_step ].
  - apply preserves_try_catch; [|done]. unfold Storage.getUser, Storage.getLoan.
    repeat first [ apply Hn | preserves_step | case_decide ].
Qed.

(** X4: the trigger only ever moves a loan into ['overdue'].  A loan stored
    as ['overdue'] stays ['overdue'] under every sequence of loan creations
    and renewals, also when a renewal has moved its due date into the
    future, and as long as it does [ProcessLoan] refuses its borrower with a
    SIGNAL and writes nothing.  Only a return takes the loan out of that
    status. *)
Theorem overdue_loan_blocks_borrower ops db id l :
  loans db !! id = Some l → status l = overdue →
  Forall (λ op, is_return op = false) ops →
  (∃ l', loans (run ops db) !! id = Some l'
         ∧ status l' = overdue ∧ user_id l' = user_id l)
  ∧ ∀ CURDATE k n, ∃ msg,
      ProcessLoan CURDATE (user_id l) k n (run ops db)
      = (inl (Signal45000 msg), run ops db).
Proof.
  intros Hl Hs Hops.
  assert (overdue_loan_of (user_id l) id db) as H by (exists l; done).
  assert (overdue_loan_of (user_id l) id (run ops db)) as Hrun.
  { clear Hl Hs. revert db H.
    induction Hops as [|op ops Hop _ IH]; intros db H; [exact H|].
    simpl. apply IH. by apply overdue_step. }
  split; [exact Hrun|]. intros CURDATE k n.
  apply ProcessLoan_refuses_overdue_patron. by eapply overdue_loan_of_count.
Qed.

Lemma overdue_loan_blocks_borrower_witness :
  (loans sample_db !! 1
   = Some (mkLoan "user_001" 2 (d 2023 12 27) (d 2024 1 10) None 0 overdue 0)
   ∧ Forall (λ op, is_return op = false)
       [ http_post_loans_renew (d 2024 1 12) "user_001" 1;
         storage_renewLoan (d 2024 1 12) 1;
         call_ProcessLoan (d 2024 1 12) "user_002" 5 14 ])
  ∧ (∃ l', loans (run [ http_post_loans_renew (d 2024 1 12) "user_001" 1;
                        storage_renewLoan (d 2024 1 12) 1;
                        call_ProcessLoan (d 2024 1 12) "user_002" 5 14 ] sample_db) !! 1
           = Some l'
           ∧ status l' = overdue ∧ user_id l' = "user_001")
  ∧ ∀ CURDATE k n, ∃ msg,
      ProcessLoan CURDATE "user_001" k n
        (run [ http_post_loans_renew (d 2024 1 12) "user_001" 1;
               storage_renewLoan (d 2024 1 12) 1;
               call_ProcessLoan (d 2024 1 12) "user_002" 5 14 ] sample_db)
      = (inl (Signal45000 msg),
         run [ http_post_loans_renew (d 2024 1 12) "user_001" 1;
               storage_renewLoan (d 2024 1 12) 1;
               call_ProcessLoan (d 2024 1 12) "user_002" 5 14 ] sample_db).
Proof.
  assert (Forall (λ op, is_return op = false)
       [ http_post_loans_renew (d 2024 1 12) "user_001" 1;
         storage_renewLoan (d 2024 1 12) 1;
         call_ProcessLoan (d 2024 1 12) "user_002" 5 14 ]) as HF
    by (repeat constructor).
  split; [split; [reflexivity|exact HF]|].
  apply (overdue_loan_blocks_borrower _ sample_db 1
           (mkLoan "user_001" 2 (d 2023 12 27) (d 2024 1 10) None 0 overdue 0)).
  - reflexivity.
  - reflexivity.
  - exact HF.
Defined.

(** The loan of the witness after its two renewals: due 2024-02-07, after
    2024-01-12, and still ['overdue']. *)
Example renewed_overdue_loan :
  loans (run [ http_post_loans_renew (d 2024 1 12) "user_001" 1;
               storage_renewLoan (d 2024 1 12) 1 ] sample_db) !! 1
  = Some (mkLoan "user_001" 2 (d 2023 12 27) (d 2024 2 7) None 2 overdue 0).
Proof. vm_compute. reflexivity. Qed.

(** ** Deactivated members *)

(** The loan operations never write to [users]. *)
Lemma users_step db op : users (step db op) = users db.
Proof.
  pose (I := λ db' : DB, users db' = users db).
  assert (∀ row, preserves I (INSERT_loans row)) as Hi.
  { intros row db0 H0. unfold INSERT_loans.
    repeat first [ case_decide | destruct (loans_checks _)
                 | destruct (loans_foreign_keys _ _ _) ]; exact H0. }
  assert (∀ today a k, preserves I (UPDATE_loans today a k)) as Hu.
  { intros today a k db0 H0. unfold UPDATE_loans.
    destruct (loans db0 !! k); [|exact H0].
    destruct (loans_checks _); [exact H0|].
    destruct (loans_foreign_keys _ _ _); exact H0. }
  assert (∀ a k, preserves I (UPDATE_books a k)) as Hb.
  { intros a k db0 H0. unfold UPDATE_books.
    destruct (books db0 !! k); [|exact H0]. destruct (books_checks _); exact H0. }
  assert (∀ db0, I db0 → I (step db0 op)) as Hstep.
  { intros db0 H.
    destruct op; cbn [step];
      unfold Routes.post_api_loans, Routes.post_api_loans_simple,
        Routes.post_api_loans_return, Routes.post_api_loans_renew;
      try (apply preserves_try_catch; [|done]);
      try (revert db0 H;
           match goal with |- ∀ db0, I db0 → I (?m db0).2 => change (preserves I m) end);
      unfold ProcessLoan, ReturnBook, Storage.createLoan, Storage.returnBook,
        Storage.renewLoan, Storage.getUser, Storage.getBook, Storage.getLoan;
      repeat first [ apply Hi | apply Hu | apply Hb | preserves_step | case_decide ]. }
  exact (Hstep db eq_refl).
Qed.

Lemma users_run ops db : users (run ops db) = users db.
Proof.
  revert db. induction ops as [|op ops IH]; intros db; [done|].
  simpl. by rewrite IH, users_step.
Qed.

(** X5: once a staff member has deactivated a member through
    [POST /api/members/:id/deactivate], the member's row stays inactive
    under every sequence of loan operations, and [ProcessLoan] refuses the
    member with a SIGNAL (no copy on the shelf, or "User account is not
    active") and writes nothing. *)
Theorem deactivated_member_is_refused sub s m ops db :
  users db !! sub = Some s → role s = staff →
  (∀ u, users db !! m = Some u →
        users (run ops (Admin.post_api_members_deactivate sub m db).2) !! m
        = Some (mkUser false (role u)))
  ∧ ∀ CURDATE k n, ∃ msg,
      ProcessLoan CURDATE m k n (run ops (Admin.post_api_members_deactivate sub m db).2)
      = (inl (Signal45000 msg), run ops (Admin.post_api_members_deactivate sub m db).2)
      ∧ (msg = "Book not available for loan" ∨ msg = "User account is not active").
Proof.
  intros Hs Hrole.
  assert (users (Admin.post_api_members_deactivate sub m db).2
          = match users db !! m with
            | Some u => <[m := mkUser false (role u)]> (users db)
            | None => users db
            end) as Hdb1.
  { unfold Admin.post_api_members_deactivate, Admin.try_catch, Storage.getUser.
    rewrite run_bind, run_query, Hs. rewrite decide_False by (rewrite Hrole; tauto).
    rewrite run_bind. unfold Admin.deactivateMember, Admin.UPDATE_users.
    destruct (users db !! m) as [u|]; by rewrite run_ret. }
  assert (default false (is_active <$>
            users (run ops (Admin.post_api_members_deactivate sub m db).2) !! m) = false)
    as Hinactive.
  { rewrite users_run, Hdb1. destruct (users db !! m) as [u|] eqn:Hm.
    - by rewrite lookup_insert_eq.
    - by rewrite Hm. }
  split.
  - intros u Hm. rewrite users_run, Hdb1, Hm. by rewrite lookup_insert_eq.
  - intros CURDATE k n. rewrite ProcessLoan_run.
    case_decide; [eexists; split; [done|by left]|].
    rewrite Hinactive. simpl. eexists; split; [done|by right].
Qed.

Lemma deactivated_member_is_refused_witness :
  (users sample_db !! "staff_001" = Some (mkUser true staff))
  ∧ (∀ u, users sample_db !! "user_002" = Some u →
          users (run [ http_post_loans_return (d 2024 1 13) "user_002" 2 ]
                   (Admin.post_api_members_deactivate "staff_001" "user_002" sample_db).2)
            !! "user_002"
          = Some (mkUser false (role u)))
  ∧ ∀ CURDATE k n, ∃ msg,
      ProcessLoan CURDATE "user_002" k n
        (run [ http_post_loans_return (d 2024 1 13) "user_002" 2 ]
           (Admin.post_api_members_deactivate "staff_001" "user_002" sample_db).2)
      = (inl (Signal45000 msg),
         run [ http_post_loans_return (d 2024 1 13) "user_002" 2 ]
           (Admin.post_api_members_deactivate "staff_001" "user_002" sample_db).2)
      ∧ (msg = "Book not available for loan" ∨ msg = "User account is not active").
Proof.
  split; [reflexivity|].
  apply (deactivated_member_is_refused "staff_001" (mkUser true staff) "user_002"
           [ http_post_loans_return (d 2024 1 13) "user_002" 2 ] sample_db).
  - reflexivity.
  - reflexivity.
Defined.

(** ** Who may do what *)

(** X6: the three staff-only handlers ([DELETE /api/books/:id],
    [PUT /api/books/:id], [POST /api/members/:id/deactivate]) answer 403 to a
    caller who is not staff, or whose user row is missing, and leave the
    database as it was. *)
Theorem staff_only_handlers sub db :
  role <$> users db !! sub ≠ Some staff →
  (∀ id, Routes.delete_api_books sub id db
         = (Routes.json 403 (Routes.message "Access denied. Staff only."), db))
  ∧ (∀ id book, Admin.put_api_books sub id book db
                = (Admin.json 403 (Admin.message "Access denied. Staff only."), db))
  ∧ (∀ id, Admin.post_api_members_deactivate sub id db
           = (Admin.json 403 (Admin.message "Access denied. Staff only."), db)).
Proof.
  intros Hns.
  repeat apply conj; intros;
    unfold Routes.delete_api_books, Routes.try_catch, Admin.put_api_books,
      Admin.post_api_members_deactivate, Admin.try_catch, Storage.getUser;
    rewrite run_bind, run_query;
    (destruct (users db !! sub) as [u|]; [|by rewrite run_ret]);
    (rewrite decide_True; [by rewrite run_ret|]);
    simpl in Hns; congruence.
Qed.

Lemma staff_only_handlers_witness :
  role <$> users sample_db !! "user_001" ≠ Some staff
  ∧ (∀ id, Routes.delete_api_books "user_001" id sample_db
           = (Routes.json 403 (Routes.message "Access denied. Staff only."), sample_db))
  ∧ (∀ id book, Admin.put_api_books "user_001" id book sample_db
                = (Admin.json 403 (Admin.message "Access denied. Staff only."), sample_db))
  ∧ (∀ id, Admin.post_api_members_deactivate "user_001" id sample_db
           = (Admin.json 403 (Admin.message "Access denied. Staff only."), sample_db)).
Proof.
  assert (role <$> users sample_db !! "user_001" ≠ Some staff) as H by (by vm_compute).
  split; [exact H|].
  apply (staff_only_handlers "user_001" sample_db H).
Defined.

(** X7: a caller who is not staff cannot return or renew a loan of another
    user: both handlers answer 403 "Access denied" and write nothing. *)
Theorem patron_cannot_touch_foreign_loan today sub u id l db :
  users db !! sub = Some u → role u ≠ staff →
  loans db !! id = Some l → user_id l ≠ sub →
  Routes.post_api_loans_return today sub id db
  = (Routes.json 403 (Routes.message "Access denied"), db)
  ∧ Routes.post_api_loans_renew today sub id db
    = (Routes.json 403 (Routes.message "Access denied"), db).
Proof.
  intros Hu Hrole Hl Hother.
  unfold Routes.post_api_loans_return, Routes.post_api_loans_renew, Routes.try_catch,
    Storage.getUser, Storage.getLoan.
  rewrite !run_bind, !run_query, Hu, !run_bind, !run_query, Hl.
  rewrite !decide_True by (split; assumption). by rewrite !run_ret.
Qed.

Lemma patron_cannot_touch_foreign_loan_witness :
  (users sample_db !! "user_001" = Some (mkUser true patron)
   ∧ loans sample_db !! 2
     = Some (mkLoan "user_002" 1 (d 2024 1 8) (d 2024 1 22) None 2 active 0))
  ∧ Routes.post_api_loans_return (d 2024 1 12) "user_001" 2 sample_db
    = (Routes.json 403 (Routes.message "Access denied"), sample_db)
  ∧ Routes.post_api_loans_renew (d 2024 1 12) "user_001" 2 sample_db
    = (Routes.json 403 (Routes.message "Access denied"), sample_db).
Proof.
  split; [split; reflexivity|].
  apply (patron_cannot_touch_foreign_loan (d 2024 1 12) "user_001" (mkUser true patron) 2
           (mkLoan "user_002" 1 (d 2024 1 8) (d 2024 1 22) None 2 active 0) sample_db).
  - reflexivity.
  - discriminate.
  - reflexivity.
  - discriminate.
Defined.

(** X8: whatever [userId] the body of [POST /api/loans] names, a patron's
    request writes loans in the patron's own name only: every loan row in the
    table after the request was there before, unchanged, or belongs to the
    caller.  This covers the request that ends in 500 after its INSERT. *)
Theorem patron_borrows_in_own_name sub u body db :
  users db !! sub = Some u → role u = patron →
  ∀ j l, loans (Routes.post_api_loans sub body db).2 !! j = Some l →
         loans db !! j = Some l ∨ user_id l = sub.
Proof.
  intros Hu Hrole.
  pose (I := λ db' : DB, ∀ j l, loans db' !! j = Some l →
                                loans db !! j = Some l ∨ user_id l = sub).
  assert (I db) as HI by (intros j l Hl; by left).
  assert (∀ row, user_id row = sub → preserves I (INSERT_loans row)) as Hins.
  { intros row Hrow db0 H0.
    destruct (INSERT_loans row db0) as [[e|id] db1] eqn:Hi.
    - apply INSERT_loans_Err in Hi as ->. exact H0.
    - apply INSERT_loans_Ok in Hi as (-> & _ & _ & _ & _ & ->).
      intros j l. simpl. destruct (decide (j = loans_auto_increment db0)) as [->|Hne].
      + rewrite lookup_insert_eq. intros [= <-]. by right.
      + rewrite lookup_insert_ne by done. apply H0. }
  assert (∀ a k, preserves I (UPDATE_books a k)) as Hupd.
  { intros a k db0 H0. unfold UPDATE_books.
    destruct (books db0 !! k); [|exact H0]. destruct (books_checks _); exact H0. }
  set (loanData := Storage.mkInsertLoan sub (Storage.bookId body)
                     (Storage.loanDate body) (Storage.dueDate body)
                     (Storage.returnDate body) (Storage.renewalCount body)
                     (Storage.loanStatus body) (Storage.loanFine body)).
  assert (Routes.post_api_loans sub body db
          = Routes.try_catch
              (match books db !! Storage.bookId body with
               | None => mret (Routes.json 400 (Routes.message "Book is not available"))
               | Some b =>
                 if decide (available_copies b <= 0)
                 then mret (Routes.json 400 (Routes.message "Book is not available"))
                 else loan ← Storage.createLoan loanData;
                      mret (Routes.json 201 (Routes.loan_json loan.1 loan.2))
               end) "Failed to create loan" db) as ->.
  { unfold Routes.post_api_loans, Routes.try_catch, Storage.getUser, Storage.getBook.
    rewrite run_bind, run_query, Hu. cbv zeta. rewrite run_bind, run_query. simpl.
    rewrite decide_True by done. fold loanData.
    destruct (books db !! Storage.bookId body); reflexivity. }
  change (I (Routes.try_catch
              (match books db !! Storage.bookId body with
               | None => mret (Routes.json 400 (Routes.message "Book is not available"))
               | Some b =>
                 if decide (available_copies b <= 0)
                 then mret (Routes.json 400 (Routes.message "Book is not available"))
                 else loan ← Storage.createLoan loanData;
                      mret (Routes.json 201 (Routes.loan_json loan.1 loan.2))
               end) "Failed to create loan" db).2).
  apply preserves_try_catch; [|exact HI].
  unfold Storage.createLoan.
  repeat first [ apply Hins; reflexivity | apply Hupd | preserves_step | case_decide ].
Qed.

Lemma patron_borrows_in_own_name_witness :
  users sample_db !! "user_002" = Some (mkUser true patron)
  ∧ ∀ j l,
      loans (Routes.post_api_loans "user_002"
               (Storage.mkInsertLoan "user_001" 5 (d 2024 1 13) (d 2024 1 27)
                  None None None None) sample_db).2 !! j = Some l →
      loans sample_db !! j = Some l ∨ user_id l = "user_002".
Proof.
  split; [reflexivity|].
  apply (patron_borrows_in_own_name "user_002" (mkUser true patron)
           (Storage.mkInsertLoan "user_001" 5 (d 2024 1 13) (d 2024 1 27)
              None None None None) sample_db).
  - reflexivity.
  - reflexivity.
Defined.

(** ** Authentication *)

Section authentication.
Import Auth.
Variable SHA2_256 : string → string.

Lemma alter_as_insert {A} (f : A → A) (m : gmap string A) i x :
  m !! i = Some x → alter f i m = <[i := f x]> m.
Proof.
  intros Hi. apply map_eq. intros j. destruct (decide (i = j)) as [<-|Hne].
  - by rewrite lookup_alter_eq, lookup_insert_eq, Hi.
  - by rewrite lookup_alter_ne, lookup_insert_ne.
Qed.

Lemma rows_with_email_one e tbl id acc :
  rows_with_email e tbl = [(id, acc)]
  ↔ filter (λ kv : string * Account, email kv.2 = Some e) tbl = {[ id := acc ]}.
Proof.
  unfold rows_with_email. split.
  - intros H. rewrite <- (list_to_map_to_list (filter _ tbl)), H. simpl.
    by rewrite insert_empty.
  - intros ->. apply map_to_list_singleton.
Qed.

Lemma rows_with_email_lookup e tbl id acc :
  rows_with_email e tbl = [(id, acc)] → tbl !! id = Some acc ∧ email acc = Some e.
Proof.
  intros H. apply rows_with_email_one in H.
  assert (filter (λ kv : string * Account, email kv.2 = Some e) tbl !! id = Some acc) as Hl
    by (rewrite H; apply lookup_singleton_eq).
  by apply map_lookup_filter_Some in Hl.
Qed.

Lemma rows_with_email_alter_same e tbl id acc f :
  rows_with_email e tbl = [(id, acc)] → email (f acc) = email acc →
  rows_with_email e (alter f id tbl) = [(id, f acc)].
Proof.
  intros H Hf. destruct (rows_with_email_lookup _ _ _ _ H) as [Hl He].
  apply rows_with_email_one. apply rows_with_email_one in H.
  rewrite (alter_as_insert _ _ _ acc) by done.
  rewrite map_filter_insert_True by (simpl; congruence).
  rewrite H. apply insert_singleton_eq.
Qed.

Lemma rows_with_email_alter_other e e' tbl id acc j a f :
  rows_with_email e tbl = [(id, acc)] →
  tbl !! j = Some a → email a = Some e' → e' ≠ e → email (f a) = email a →
  rows_with_email e (alter f j tbl) = [(id, acc)].
Proof.
  intros H Hj Ha Hne Hf.
  apply rows_with_email_one. apply rows_with_email_one in H.
  rewrite (alter_as_insert _ _ _ a) by done.
  rewrite map_filter_insert_not'; [done|simpl; congruence|].
  intros y Hy. simpl. assert (y = a) as -> by congruence. congruence.
Qed.

(** X9: what [AuthenticateUser] answers for the row that has the email, and
    what it writes.  The answer is valid exactly when the account is active,
    has fewer than 5 failed attempts and the stored hash is the hash of the
    password; the id and the role are reported in every case, valid or not.
    A valid call resets the counter to 0 and stamps [last_login]; a wrong
    password on an eligible account adds 1 to the counter; a call on an
    inactive or locked account writes nothing.  Other rows are never
    written. *)
Theorem AuthenticateUser_outcome now e p tbl id acc :
  rows_with_email e tbl = [(id, acc)] →
  let eligible := account_is_active acc = true ∧ failed_login_attempts acc < 5 in
  let right := password_hash acc = Some (EncryptPassword SHA2_256 p) in
  (∃ valid,
     (AuthenticateUser SHA2_256 now e p tbl).1
     = Some (mkOut (Some id) (Some (account_role acc)) valid)
     ∧ (valid = true ↔ eligible ∧ right))
  ∧ (eligible → right →
       (AuthenticateUser SHA2_256 now e p tbl).2 !! id
       = Some (set_last_login (Some now) (set_failed_login_attempts 0 acc)))
  ∧ (eligible → ¬ right →
       (AuthenticateUser SHA2_256 now e p tbl).2 !! id
       = Some (set_failed_login_attempts (failed_login_attempts acc + 1) acc))
  ∧ (¬ eligible → (AuthenticateUser SHA2_256 now e p tbl).2 = tbl)
  ∧ (∀ j, j ≠ id → (AuthenticateUser SHA2_256 now e p tbl).2 !! j = tbl !! j).
Proof.
  intros H. cbv zeta. destruct (rows_with_email_lookup _ _ _ _ H) as [Hl He].
  unfold AuthenticateUser. rewrite H.
  destruct (account_is_active acc) eqn:Hact; simpl.
  - destruct (decide (failed_login_attempts acc < 5)) as [Hlt|Hge].
    + rewrite bool_decide_eq_true_2 by done.
      destruct (decide (password_hash acc = Some (EncryptPassword SHA2_256 p))) as [Hr|Hw].
      * simpl. repeat apply conj.
        -- exists true. split; [done|]. split; [done|done].
        -- intros _ _. by rewrite lookup_alter_eq, Hl.
        -- intros _ Hn. done.
        -- intros Hn. exfalso. apply Hn. done.
        -- intros j Hj. by rewrite lookup_alter_ne.
      * simpl. repeat apply conj.
        -- exists false. split; [done|]. split; [done|]. intros [_ ?]. done.
        -- intros _ Hn. done.
        -- intros _ _. by rewrite lookup_alter_eq, Hl.
        -- intros Hn. exfalso. apply Hn. done.
        -- intros j Hj. by rewrite lookup_alter_ne.
    + rewrite bool_decide_eq_false_2 by done. simpl. repeat apply conj.
      * exists false. split; [done|]. split; [done|]. intros [[_ ?] _]. lia.
      * intros [_ ?]. lia.
      * intros [_ ?]. lia.
      * done.
      * done.
  - repeat apply conj.
    + exists false. split; [done|]. split; [done|]. intros [[? _] _]. done.
    + intros [? _]. done.
    + intros [? _]. done.
    + done.
    + done.
Qed.

(** An email that no row has: the answer is invalid, id and role are NULL,
    nothing is written. *)
Lemma AuthenticateUser_unknown_email now e p tbl :
  (∀ id acc, tbl !! id = Some acc → email acc ≠ Some e) →
  AuthenticateUser SHA2_256 now e p tbl = (Some (mkOut None None false), tbl).
Proof.
  intros Hnone. unfold AuthenticateUser, rows_with_email.
  assert (filter (λ kv : string * Account, email kv.2 = Some e) tbl = ∅) as ->.
  { apply map_empty. intros k. apply map_lookup_filter_None.
    destruct (tbl !! k) as [a|] eqn:Hk; [right|by left].
    intros a' [= <-]. simpl. by apply (Hnone k). }
  by rewrite map_to_list_empty.
Qed.

Lemma refused_attempt e id acc tbl a :
  refused e id acc tbl → refused e id acc (attempt SHA2_256 tbl a).
Proof.
  intros [Hrow Hinel]. split; [|exact Hinel].
  unfold attempt, AuthenticateUser.
  destruct (rows_with_email (with_email a) tbl) as [|[j row] [|? ?]] eqn:Hrows;
    [done| |done].
  destruct (decide (with_email a = e)) as [Heq|Hne].
  - rewrite Heq, Hrow in Hrows. injection Hrows as <- <-.
    destruct (account_is_active acc) eqn:Hact; simpl; [|done].
    rewrite bool_decide_eq_false_2; [done|]. intros ?. apply Hinel. done.
  - destruct (rows_with_email_lookup _ _ _ _ Hrows) as [Hj Hej].
    destruct (account_is_active row && bool_decide (failed_login_attempts row < 5));
      [|done].
    case_decide; simpl; by apply (rows_with_email_alter_other e (with_email a) _ _ _ _ row).
Qed.

(** X10: an account that is inactive, or that has reached 5 failed attempts,
    is refused for good: after any sequence of calls of the procedure, with
    any emails and passwords, its row is the same and a call with its email
    is still answered invalid, with the right password as with any other.
    The procedure has no path that reactivates or unlocks. *)
Theorem refused_account_stays_refused l tbl e id acc :
  rows_with_email e tbl = [(id, acc)] →
  ¬ (account_is_active acc = true ∧ failed_login_attempts acc < 5) →
  attempts SHA2_256 l tbl !! id = Some acc
  ∧ ∀ now p,
      AuthenticateUser SHA2_256 now e p (attempts SHA2_256 l tbl)
      = (Some (mkOut (Some id) (Some (account_role acc)) false),
         attempts SHA2_256 l tbl).
Proof.
  intros Hrow Hinel.
  assert (refused e id acc (attempts SHA2_256 l tbl)) as [Hrow' _].
  { assert (refused e id acc tbl) as H by done. clear Hrow. revert tbl H.
    induction l as [|a l IH]; intros tbl H; [exact H|].
    simpl. apply IH. by apply refused_attempt. }
  split; [by apply (rows_with_email_lookup e)|].
  intros now p. unfold AuthenticateUser. rewrite Hrow'.
  destruct (account_is_active acc) eqn:Hact; simpl; [|done].
  rewrite bool_decide_eq_false_2; [done|]. intros ?. apply Hinel. done.
Qed.

End authentication.

Section lockout.
Import Auth.
Variable SHA2_256 : string → string.

Lemma wrong_attempt_row e tbl id acc a :
  rows_with_email e tbl = [(id, acc)] → account_is_active acc = true →
  with_email a = e →
  password_hash acc ≠ Some (EncryptPassword SHA2_256 (with_password a)) →
  rows_with_email e (attempt SHA2_256 tbl a)
  = [(id, if decide (failed_login_attempts acc < 5)
          then set_failed_login_attempts (failed_login_attempts acc + 1) acc
          else acc)].
Proof.
  intros Hrow Hact He Hw. unfold attempt, AuthenticateUser. rewrite He, Hrow, Hact. simpl.
  destruct (decide (failed_login_attempts acc < 5)) as [Hlt|Hge].
  - rewrite bool_decide_eq_true_2 by done. rewrite decide_False by done. simpl.
    by apply (rows_with_email_alter_same e tbl id acc
                (λ a0, set_failed_login_attempts (failed_login_attempts a0 + 1) a0)).
  - by rewrite bool_decide_eq_false_2 by done.
Qed.

Lemma wrong_attempts_row ps : ∀ tbl e id acc,
  rows_with_email e tbl = [(id, acc)] → account_is_active acc = true →
  failed_login_attempts acc <= 5 →
  Forall (λ a, with_email a = e
               ∧ password_hash acc ≠ Some (EncryptPassword SHA2_256 (with_password a))) ps →
  rows_with_email e (attempts SHA2_256 ps tbl)
  = [(id, set_failed_login_attempts
            (Z.min 5 (failed_login_attempts acc + Z.of_nat (length ps))) acc)].
Proof.
  induction ps as [|a ps IH]; intros tbl e id acc Hrow Hact Hle Hall.
  - simpl. rewrite Hrow. destruct acc as [em ph ro ac fa la].
    unfold set_failed_login_attempts. simpl in *.
    replace (5 `min` (fa + Z.of_nat 0)) with fa by lia. reflexivity.
  - apply Forall_cons in Hall as [[He Hw] Hall].
    pose proof (wrong_attempt_row e tbl id acc a Hrow Hact He Hw) as Hstep.
    cbn [attempts fold_left]. fold (attempts SHA2_256 ps (attempt SHA2_256 tbl a)).
    destruct (decide (failed_login_attempts acc < 5)) as [Hlt|Hge].
    + rewrite (IH _ e id _ Hstep); [|done|simpl; lia|done].
      unfold set_failed_login_attempts. cbn [failed_login_attempts email password_hash
        account_role account_is_active last_login].
      replace (failed_login_attempts acc + 1 + Z.of_nat (length ps))
        with (failed_login_attempts acc + Z.of_nat (length (a :: ps)))
        by (simpl length; lia).
      reflexivity.
    + rewrite (IH _ e id _ Hstep); [|done|done|done].
      replace (5 `min` (failed_login_attempts acc + Z.of_nat (length ps)))
        with (5 `min` (failed_login_attempts acc + Z.of_nat (length (a :: ps))))
        by (simpl length; lia).
      reflexivity.
Qed.

(** X11: wrong passwords on an active account count up to 5 and stop there:
    after [n] consecutive calls with the account's email and a wrong
    password the counter is [min 5 (c + n)], where [c <= 5] was the counter
    before.  While the sum is below 5 the right password is still accepted;
    from the call that makes it 5 on, the right password is refused as
    well. *)
Theorem wrong_passwords_lock_the_account ps tbl e id acc :
  rows_with_email e tbl = [(id, acc)] → account_is_active acc = true →
  failed_login_attempts acc <= 5 →
  Forall (λ a, with_email a = e
               ∧ password_hash acc ≠ Some (EncryptPassword SHA2_256 (with_password a))) ps →
  failed_login_attempts <$> attempts SHA2_256 ps tbl !! id
  = Some (Z.min 5 (failed_login_attempts acc + Z.of_nat (length ps)))
  ∧ ∀ now p, password_hash acc = Some (EncryptPassword SHA2_256 p) →
      p_is_valid <$> (AuthenticateUser SHA2_256 now e p (attempts SHA2_256 ps tbl)).1
      = Some (bool_decide (failed_login_attempts acc + Z.of_nat (length ps) < 5)).
Proof.
  intros Hrow Hact Hle Hall.
  pose proof (wrong_attempts_row ps tbl e id acc Hrow Hact Hle Hall) as Hrows.
  split.
  - apply rows_with_email_lookup in Hrows as [-> _]. done.
  - intros now p Hright. unfold AuthenticateUser. rewrite Hrows. simpl. rewrite Hact. simpl.
    destruct (decide (failed_login_attempts acc + Z.of_nat (length ps) < 5)) as [Hlt|Hge].
    + rewrite !bool_decide_eq_true_2 by lia. by rewrite decide_True.
    + by rewrite !bool_decide_eq_false_2 by lia.
Qed.

End lockout.

(** ** Sessions *)

Section sessions.
Import Auth.
Variable SHA2_256 : string → string.

(** X12: a login that answers with a session id was made with the email
    and the password of an active account below the failure limit, the
    session carries that account's id and role, and [isAuthenticated] lets
    the session id through until one week (604800000 ms) after the login;
    at any later time it answers 401 and deletes the session. *)
Theorem login_session_round_trip now sid e p st uid r st' :
  sid ≠ "" →
  login SHA2_256 now sid e p st = (logged_in sid uid r, st') →
  (∃ acc, rows_with_email e st.1 = [(uid, acc)]
          ∧ account_is_active acc = true
          ∧ failed_login_attempts acc < 5
          ∧ password_hash acc = Some (EncryptPassword SHA2_256 p)
          ∧ account_role acc = r)
  ∧ st'.2 !! sid = Some (mkSession uid r (now + 604800000))
  ∧ (∀ t, t <= now + 604800000 →
          isAuthenticated t (Some sid) st'.2 = (next uid r, st'.2))
  ∧ (∀ t, now + 604800000 < t →
          isAuthenticated t (Some sid) st'.2
          = (status_json 401 "Session expired", delete sid st'.2)).
Proof.
  intros Hsid. unfold login.
  case_decide; [done|].
  destruct (AuthenticateUser SHA2_256 now e p st.1) as [[out|] tbl] eqn:Hauth; [|done].
  destruct (p_is_valid out) eqn:Hvalid; simpl; [|done].
  destruct (p_user_id out) as [user_id|] eqn:Huid; [|done].
  destruct (p_role out) as [user_role|] eqn:Hrole; [|done].
  destruct (tbl !! user_id); [|done].
  intros [= <- <- <-].
  assert (∃ acc, rows_with_email e st.1 = [(user_id, acc)]
          ∧ account_is_active acc = true
          ∧ failed_login_attempts acc < 5
          ∧ password_hash acc = Some (EncryptPassword SHA2_256 p)
          ∧ account_role acc = user_role) as Hacc.
  { unfold AuthenticateUser in Hauth.
    destruct (rows_with_email e st.1) as [|[j row] [|? ?]] eqn:Hrows.
    - injection Hauth as <- <-. done.
    - destruct (account_is_active row) eqn:Hact; simpl in Hauth.
      + destruct (decide (failed_login_attempts row < 5)) as [Hlt|Hge].
        * rewrite bool_decide_eq_true_2 in Hauth by done.
          destruct (decide (password_hash row = Some (EncryptPassword SHA2_256 p)));
            injection Hauth as <- <-; simpl in *; [|done].
          injection Huid as <-. injection Hrole as <-. by exists row.
        * rewrite bool_decide_eq_false_2 in Hauth by done.
          injection Hauth as <- <-. done.
      + injection Hauth as <- <-. done.
    - done. }
  split; [exact Hacc|]. simpl.
  split; [by rewrite lookup_insert_eq|].
  split; intros t Ht; unfold isAuthenticated;
    rewrite decide_False by done; rewrite lookup_insert_eq; simpl;
    unfold one_week.
  - by rewrite decide_False by lia.
  - by rewrite decide_True by lia.
Qed.

(** X13: a session id that [logout] has been called with, or that
    [isAuthenticated] has answered 401 "Session expired" to, is not in the
    store any more: [isAuthenticated] answers 401 to it at every later call,
    whatever the clock says, and neither call touches another session. *)
Theorem ended_session_stays_ended sid sessions :
  sid ≠ "" →
  (∀ t, isAuthenticated t (Some sid) (logout (Some sid) sessions).2
        = (status_json 401 "Session expired", (logout (Some sid) sessions).2))
  ∧ (∀ t0 sessions',
       isAuthenticated t0 (Some sid) sessions
       = (status_json 401 "Session expired", sessions') →
       ∀ t, isAuthenticated t (Some sid) sessions'
            = (status_json 401 "Session expired", sessions'))
  ∧ (∀ other, other ≠ sid →
       (logout (Some sid) sessions).2 !! other = sessions !! other
       ∧ ∀ t, (isAuthenticated t (Some sid) sessions).2 !! other = sessions !! other).
Proof.
  intros Hsid. repeat apply conj.
  - intros t. unfold logout, isAuthenticated. rewrite !decide_False by done. simpl.
    rewrite lookup_delete_eq. by rewrite delete_delete_eq.
  - intros t0 sessions'. unfold isAuthenticated. rewrite !decide_False by done.
    destruct (sessions !! sid) as [s|] eqn:Hs.
    + case_decide; [|done]. intros Heq t. assert (sessions' = delete sid sessions) as ->
        by congruence.
      rewrite decide_False by done. rewrite lookup_delete_eq. by rewrite delete_delete_eq.
    + intros Heq t. assert (sessions' = delete sid sessions) as -> by congruence.
      rewrite decide_False by done. rewrite lookup_delete_eq. by rewrite delete_delete_eq.
  - intros other Hne. split.
    + unfold logout. rewrite decide_False by done. simpl. by rewrite lookup_delete_ne.
    + intros t. unfold isAuthenticated. rewrite decide_False by done.
      destruct (sessions !! sid) as [s|]; [case_decide|]; simpl;
        rewrite ?lookup_delete_ne by done; done.
Qed.

End sessions.

(** ** Authentication on the sample accounts *)

Lemma AuthenticateUser_outcome_witness :
  Auth.rows_with_email "alice.johnson@email.com" sample_accounts
  = [("user_001", Auth.mkAccount (Some "alice.johnson@email.com")
        (Some (Auth.EncryptPassword toy_hash "password123")) patron true 0 None)]
  ∧ (∃ valid,
       (Auth.AuthenticateUser toy_hash 1705000000 "alice.johnson@email.com" "letmein"
          sample_accounts).1
       = Some (Auth.mkOut (Some "user_001") (Some patron) valid)
       ∧ (valid = true
          ↔ (true = true ∧ 0 < 5)
            ∧ Some (Auth.EncryptPassword toy_hash "password123")
              = Some (Auth.EncryptPassword toy_hash "letmein")))
  ∧ Auth.failed_login_attempts <$>
      (Auth.AuthenticateUser toy_hash 1705000000 "alice.johnson@email.com" "letmein"
         sample_accounts).2 !! "user_001"
    = Some 1.
Proof.
  assert (Auth.rows_with_email "alice.johnson@email.com" sample_accounts
    = [("user_001", Auth.mkAccount (Some "alice.johnson@email.com")
          (Some (Auth.EncryptPassword toy_hash "password123")) patron true 0 None)]) as H
    by (vm_compute; reflexivity).
  split; [exact H|].
  destruct (AuthenticateUser_outcome toy_hash 1705000000 "alice.johnson@email.com"
              "letmein" sample_accounts "user_001" _ H) as (Hout & _ & Hwrong & _).
  split; [exact Hout|].
  rewrite Hwrong; [reflexivity|split; [reflexivity|simpl; lia]|].
  simpl. intros Heq. vm_compute in Heq. discriminate Heq.
Defined.

Lemma refused_account_stays_refused_witness :
  (Auth.rows_with_email "bob.smith@email.com" sample_accounts
   = [("user_002", Auth.mkAccount (Some "bob.smith@email.com")
         (Some (Auth.EncryptPassword toy_hash "password123")) patron true 5 None)]
   ∧ ¬ (true = true ∧ 5 < 5))
  ∧ Auth.attempts toy_hash
      [ Auth.mkAttempt 1705000000 "bob.smith@email.com" "password123";
        Auth.mkAttempt 1705000060 "alice.johnson@email.com" "password123";
        Auth.mkAttempt 1705000120 "bob.smith@email.com" "guess" ] sample_accounts
      !! "user_002"
    = Some (Auth.mkAccount (Some "bob.smith@email.com")
              (Some (Auth.EncryptPassword toy_hash "password123")) patron true 5 None)
  ∧ ∀ now p,
      Auth.AuthenticateUser toy_hash now "bob.smith@email.com" p
        (Auth.attempts toy_hash
           [ Auth.mkAttempt 1705000000 "bob.smith@email.com" "password123";
             Auth.mkAttempt 1705000060 "alice.johnson@email.com" "password123";
             Auth.mkAttempt 1705000120 "bob.smith@email.com" "guess" ] sample_accounts)
      = (Some (Auth.mkOut (Some "user_002") (Some patron) false),
         Auth.attempts toy_hash
           [ Auth.mkAttempt 1705000000 "bob.smith@email.com" "password123";
             Auth.mkAttempt 1705000060 "alice.johnson@email.com" "password123";
             Auth.mkAttempt 1705000120 "bob.smith@email.com" "guess" ] sample_accounts).
Proof.
  assert (Auth.rows_with_email "bob.smith@email.com" sample_accounts
   = [("user_002", Auth.mkAccount (Some "bob.smith@email.com")
         (Some (Auth.EncryptPassword toy_hash "password123")) patron true 5 None)]) as H
    by (vm_compute; reflexivity).
  assert (¬ (true = true ∧ 5 < 5)) as Hn by lia.
  split; [split; [exact H|exact Hn]|].
  apply (refused_account_stays_refused toy_hash _ sample_accounts
           "bob.smith@email.com" "user_002" _ H Hn).
Defined.

Lemma wrong_passwords_lock_the_account_witness :
  (Auth.rows_with_email "alice.johnson@email.com" sample_accounts
   = [("user_001", Auth.mkAccount (Some "alice.johnson@email.com")
         (Some (Auth.EncryptPassword toy_hash "password123")) patron true 0 None)]
   ∧ 0 <= 5)
  ∧ Auth.failed_login_attempts <$>
      Auth.attempts toy_hash
        (replicate 6 (Auth.mkAttempt 1705000000 "alice.johnson@email.com" "guess"))
        sample_accounts !! "user_001"
    = Some (Z.min 5 (0 + Z.of_nat 6))
  ∧ ∀ now p,
      Some (Auth.EncryptPassword toy_hash "password123")
      = Some (Auth.EncryptPassword toy_hash p) →
      Auth.p_is_valid <$>
        (Auth.AuthenticateUser toy_hash now "alice.johnson@email.com" p
           (Auth.attempts toy_hash
              (replicate 6 (Auth.mkAttempt 1705000000 "alice.johnson@email.com" "guess"))
              sample_accounts)).1
      = Some (bool_decide (0 + Z.of_nat 6 < 5)).
Proof.
  assert (Auth.rows_with_email "alice.johnson@email.com" sample_accounts
   = [("user_001", Auth.mkAccount (Some "alice.johnson@email.com")
         (Some (Auth.EncryptPassword toy_hash "password123")) patron true 0 None)]) as H
    by (vm_compute; reflexivity).
  split; [split; [exact H|lia]|].
  apply (wrong_passwords_lock_the_account toy_hash
           (replicate 6 (Auth.mkAttempt 1705000000 "alice.johnson@email.com" "guess"))
           sample_accounts "alice.johnson@email.com" "user_001" _ H).
  - reflexivity.
  - simpl. lia.
  - simpl. repeat constructor; simpl; intros Heq; vm_compute in Heq; discriminate Heq.
Defined.

Lemma login_session_round_trip_witness :
  ("k3j9x2lq8" ≠ ""
   ∧ Auth.login toy_hash 1705000000 "k3j9x2lq8" "sarah.librarian@library.edu"
       "librarian456" (sample_accounts, ∅)
     = (Auth.logged_in "k3j9x2lq8" "staff_001" staff,
        (Auth.login toy_hash 1705000000 "k3j9x2lq8" "sarah.librarian@library.edu"
           "librarian456" (sample_accounts, ∅)).2))
  ∧ (Auth.login toy_hash 1705000000 "k3j9x2lq8" "sarah.librarian@library.edu"
       "librarian456" (sample_accounts, ∅)).2.2 !! "k3j9x2lq8"
    = Some (Auth.mkSession "staff_001" staff (1705000000 + 604800000))
  ∧ (∀ t, t <= 1705000000 + 604800000 →
          Auth.isAuthenticated t (Some "k3j9x2lq8")
            (Auth.login toy_hash 1705000000 "k3j9x2lq8" "sarah.librarian@library.edu"
               "librarian456" (sample_accounts, ∅)).2.2
          = (Auth.next "staff_001" staff,
             (Auth.login toy_hash 1705000000 "k3j9x2lq8" "sarah.librarian@library.edu"
                "librarian456" (sample_accounts, ∅)).2.2))
  ∧ (∀ t, 1705000000 + 604800000 < t →
          Auth.isAuthenticated t (Some "k3j9x2lq8")
            (Auth.login toy_hash 1705000000 "k3j9x2lq8" "sarah.librarian@library.edu"
               "librarian456" (sample_accounts, ∅)).2.2
          = (Auth.status_json 401 "Session expired",
             delete "k3j9x2lq8"
               (Auth.login toy_hash 1705000000 "k3j9x2lq8" "sarah.librarian@library.edu"
                  "librarian456" (sample_accounts, ∅)).2.2)).
Proof.
  assert ("k3j9x2lq8" ≠ "") as Hs by discriminate.
  assert (Auth.login toy_hash 1705000000 "k3j9x2lq8" "sarah.librarian@library.edu"
       "librarian456" (sample_accounts, ∅)
     = (Auth.logged_in "k3j9x2lq8" "staff_001" staff,
        (Auth.login toy_hash 1705000000 "k3j9x2lq8" "sarah.librarian@library.edu"
           "librarian456" (sample_accounts, ∅)).2)) as H
    by (vm_compute; reflexivity).
  split; [split; [exact Hs|exact H]|].
  destruct (login_session_round_trip toy_hash 1705000000 "k3j9x2lq8"
              "sarah.librarian@library.edu" "librarian456" (sample_accounts, ∅)
              "staff_001" staff _ Hs H) as (_ & H1 & H2 & H3).
  split; [exact H1|]. split; [exact H2|exact H3].
Defined.

Lemma ended_session_stays_ended_witness :
  "k3j9x2lq8" ≠ ""
  ∧ (∀ t, Auth.isAuthenticated t (Some "k3j9x2lq8")
            (Auth.logout (Some "k3j9x2lq8")
               {[ "k3j9x2lq8" := Auth.mkSession "staff_001" staff 1705604800000 ]}).2
          = (Auth.status_json 401 "Session expired",
             (Auth.logout (Some "k3j9x2lq8")
                {[ "k3j9x2lq8" := Auth.mkSession "staff_001" staff 1705604800000 ]}).2)).
Proof.
  assert ("k3j9x2lq8" ≠ "") as Hs by discriminate.
  split; [exact Hs|].
  apply (ended_session_stays_ended "k3j9x2lq8"
           {[ "k3j9x2lq8" := Auth.mkSession "staff_001" staff 1705604800000 ]} Hs).
Defined.

(** ** Reports *)

Lemma COUNT_loans_insert_fresh (P : Loan → Prop) `{!∀ l, Decision (P l)} ls k l :
  ls !! k = None →
  COUNT_loans P (<[k := l]> ls)
  = COUNT_loans P ls + (if decide (P l) then 1 else 0).
Proof.
  intros Hk. unfold COUNT_loans. rewrite map_filter_insert. simpl.
  destruct (decide (P l)) as [HP|HP].
  - rewrite map_size_insert_None; [lia|].
    apply map_lookup_filter_None. by left.
  - rewrite delete_id by done. lia.
Qed.


Lemma by_due_date_total : Total Reports.by_due_date.
Proof. intros x y. unfold Reports.by_due_date. lia. Qed.

(** X14: [getOverdueLoans] lists, in the order of their due dates, exactly
    the loans stored as ['active'] whose due date is today or earlier; a loan
    that the trigger has stored as ['overdue'] is not in the list.  The list
    has as many rows as [getStats] counts as [overdueItems], and these never
    exceed its [activeLoans]. *)
Theorem getOverdueLoans_report today db :
  Sorted Reports.by_due_date (Reports.getOverdueLoans today db)
  ∧ (∀ k l, (k, l) ∈ Reports.getOverdueLoans today db
            ↔ loans db !! k = Some l ∧ status l = active ∧ due_date l <= today)
  ∧ (∀ k l, (k, l) ∈ Reports.getOverdueLoans today db → status l ≠ overdue)
  ∧ Z.of_nat (length (Reports.getOverdueLoans today db))
    = Reports.overdueItems (Reports.getStats today db)
  ∧ 0 <= Reports.overdueItems (Reports.getStats today db)
    <= Reports.activeLoans (Reports.getStats today db).
Proof.
  assert (∀ k l, (k, l) ∈ Reports.getOverdueLoans today db
            ↔ loans db !! k = Some l ∧ status l = active ∧ due_date l <= today) as Hmem.
  { intros k l. unfold Reports.getOverdueLoans.
    rewrite merge_sort_Permutation, elem_of_map_to_list, map_lookup_filter_Some.
    simpl. tauto. }
  repeat apply conj.
  - pose proof by_due_date_total as Htotal. apply (Sorted_merge_sort _).
  - exact Hmem.
  - intros k l Hin. apply Hmem in Hin as (_ & Hs & _). congruence.
  - unfold Reports.getOverdueLoans. rewrite merge_sort_Permutation.
    rewrite length_map_to_list. reflexivity.
  - simpl. apply COUNT_loans_nonneg.
  - simpl. unfold COUNT_loans. apply inj_le. apply map_subseteq_size.
    apply map_filter_subseteq_ext. intros k l _ [? _]. done.
Qed.

(** The report on the sample database on 2024-01-22: loan 2 is due that day
    and is listed; loan 1, 12 days late, is stored as ['overdue'] and is
    not. *)
Example getOverdueLoans_sample :
  Reports.getOverdueLoans (d 2024 1 22) sample_db
  = [(2, mkLoan "user_002" 1 (d 2024 1 8) (d 2024 1 22) None 2 active 0)].
Proof. vm_compute. reflexivity. Qed.

(** X15: what a loan does to the dashboard numbers.  After a [ProcessLoan]
    that returned normally, [getStats] shows one active loan more, the same
    number of books and of active members, and one overdue item more exactly
    when the new due date is not after the day of the report. *)
Theorem getStats_after_ProcessLoan CURDATE u k n db db1 today :
  ProcessLoan CURDATE u k n db = (inr tt, db1) →
  Reports.activeLoans (Reports.getStats today db1)
  = Reports.activeLoans (Reports.getStats today db) + 1
  ∧ Reports.overdueItems (Reports.getStats today db1)
    = Reports.overdueItems (Reports.getStats today db)
      + (if decide (CURDATE + n <= today) then 1 else 0)
  ∧ Reports.totalBooks (Reports.getStats today db1)
    = Reports.totalBooks (Reports.getStats today db)
  ∧ Reports.activeMembers (Reports.getStats today db1)
    = Reports.activeMembers (Reports.getStats today db).
Proof.
  intros Hp. apply ProcessLoan_Ok in Hp as (b & Hb & _ & Hfresh & _ & ->).
  simpl. repeat apply conj.
  - rewrite COUNT_loans_insert_fresh by done.
    rewrite decide_True by done. done.
  - rewrite COUNT_loans_insert_fresh by done.
    destruct (decide (CURDATE + n <= today)).
    + rewrite decide_True by done. done.
    + rewrite decide_False; [done|]. intros [_ ?]. done.
  - rewrite map_size_insert_Some; [done|]. by eexists.
  - done.
Qed.

Lemma getStats_after_ProcessLoan_witness :
  ProcessLoan (d 2024 1 12) "user_002" 5 14 sample_db
  = (inr tt, (ProcessLoan (d 2024 1 12) "user_002" 5 14 sample_db).2)
  ∧ Reports.activeLoans
      (Reports.getStats (d 2024 1 20) (ProcessLoan (d 2024 1 12) "user_002" 5 14 sample_db).2)
    = Reports.activeLoans (Reports.getStats (d 2024 1 20) sample_db) + 1
  ∧ Reports.overdueItems
      (Reports.getStats (d 2024 1 20) (ProcessLoan (d 2024 1 12) "user_002" 5 14 sample_db).2)
    = Reports.overdueItems (Reports.getStats (d 2024 1 20) sample_db)
      + (if decide (d 2024 1 12 + 14 <= d 2024 1 20) then 1 else 0)
  ∧ Reports.totalBooks
      (Reports.getStats (d 2024 1 20) (ProcessLoan (d 2024 1 12) "user_002" 5 14 sample_db).2)
    = Reports.totalBooks (Reports.getStats (d 2024 1 20) sample_db)
  ∧ Reports.activeMembers
      (Reports.getStats (d 2024 1 20) (ProcessLoan (d 2024 1 12) "user_002" 5 14 sample_db).2)
    = Reports.activeMembers (Reports.getStats (d 2024 1 20) sample_db).
Proof.
  assert (ProcessLoan (d 2024 1 12) "user_002" 5 14 sample_db
    = (inr tt, (ProcessLoan (d 2024 1 12) "user_002" 5 14 sample_db).2)) as H
    by (vm_compute; reflexivity).
  split; [exact H|].
  apply (getStats_after_ProcessLoan (d 2024 1 12) "user_002" 5 14 sample_db _
           (d 2024 1 20) H).
Defined.



(** ** The whole of ProcessLoan *)

(** X17: [ProcessLoan] has two outcomes only.  When the book has a copy on
    the shelf, the patron exists and is active, and the patron has no loan
    stored as ['overdue'], it returns with both writes done: the new loan
    under the next id and the book with one copy less.  In every other case
    it raises a signal and the database is the one it started from, so that
    no loan row is ever left without its copy being taken. *)
Theorem ProcessLoan_all_or_nothing CURDATE u k n db :
  inventory_invariant db →
  loans db !! loans_auto_increment db = None →
  if decide (default 0 (available_copies <$> books db !! k) > 0
             ∧ default false (is_active <$> users db !! u) = true
             ∧ overdue_count u db = 0)
  then ∃ b, books db !! k = Some b
            ∧ ProcessLoan CURDATE u k n db
              = (inr tt,
                 mkDB (users db) (<[k := lent b]> (books db))
                      (<[loans_auto_increment db := new_loan CURDATE u k n]> (loans db))
                      (loans_auto_increment db + 1))
  else ∃ msg, ProcessLoan CURDATE u k n db = (inl (Signal45000 msg), db).
Proof.
  intros Hinv Hfresh.
  destruct (ProcessLoan_guards CURDATE u k n db Hinv Hfresh) as (Hiff & H1 & H2 & H3).
  pose proof (COUNT_loans_nonneg (λ l, user_id l = u ∧ status l = overdue) (loans db)) as Hnn.
  fold (overdue_count u db) in Hnn.
  case_decide as Hc.
  - apply Hiff in Hc.
    destruct (ProcessLoan CURDATE u k n db) as [r db1] eqn:Hp. simpl in Hc. subst r.
    destruct (ProcessLoan_Ok _ _ _ _ _ _ Hp) as (b & Hb & _ & _ & _ & ->).
    exists b. done.
  - destruct (decide (default 0 (available_copies <$> books db !! k) <= 0)) as [Hle|Hgt].
    { eexists. by apply H1. }
    destruct (default false (is_active <$> users db !! u)) eqn:Hact.
    + eexists. apply H3; [lia|done|].
      destruct (decide (overdue_count u db = 0)); [|lia].
      exfalso. apply Hc. repeat split; [lia|done].
    + eexists. apply H2; [lia|done].
Qed.

Lemma ProcessLoan_all_or_nothing_witness :
  inventory_invariant sample_db
  ∧ loans sample_db !! loans_auto_increment sample_db = None
  ∧ (∃ b, books sample_db !! 5 = Some b
          ∧ ProcessLoan (d 2024 1 12) "user_002" 5 14 sample_db
            = (inr tt,
               mkDB (users sample_db) (<[5 := lent b]> (books sample_db))
                    (<[4 := new_loan (d 2024 1 12) "user_002" 5 14]> (loans sample_db))
                    5))
  ∧ (∃ msg, ProcessLoan (d 2024 1 12) "user_001" 5 14 sample_db
            = (inl (Signal45000 msg), sample_db)).
Proof.
  assert (loans sample_db !! loans_auto_increment sample_db = None) as Hfresh
    by (vm_compute; reflexivity).
  split; [exact inventory_invariant_sample|]. split; [exact Hfresh|]. split.
  - exact (ProcessLoan_all_or_nothing (d 2024 1 12) "user_002" 5 14 sample_db
             inventory_invariant_sample Hfresh).
  - exact (ProcessLoan_all_or_nothing (d 2024 1 12) "user_001" 5 14 sample_db
             inventory_invariant_sample Hfresh).
Defined.
